(** * Student affect monitor: shallow embedding and verified properties

    The development embeds the fusion core of [student_affect_monitor.py]
    (label harmonisation, eye-aspect-ratio, the eye-closure debouncer of the
    webcam loop, the periodic reducer with its alert purge) and the request
    handler of [api.py].

    Numeric conventions.  Landmark coordinates and the eye-aspect-ratio are
    IEEE binary64 numbers, as NumPy's [float64] and Python's [float] are:
    Rocq's primitive floats, whose operations round to nearest, ties to
    even.  Key hold-durations and clock readings are rationals ([Q]), the
    exact values of the floats they stand for; where the code rounds a
    computed rational to a float ([statistics.mean]), the rounding is written
    out.  Python integers are [Z].

    Threads.  Each thread body is embedded as a function on the module
    globals, one call per loop iteration or callback; the properties below
    are about one thread running its step without interference.  Detectors,
    the classifier, the camera and the popups are collaborators: what they
    return is an input of the step, what is sent to them an output.

    [api.py] imports [mp_face_mesh] from the monitor module, whose dlib
    version does not define it; the face-mesh object is taken as one more
    collaborator of the handler. *)

From Stdlib Require Import PrimFloat.
From Stdlib Require Import Reals Lra QArith Qabs ZArith Lia.
From Stdlib Require Lqa.
From stdpp Require Import base list gmap strings.

Local Open Scope string_scope.
Local Open Scope list_scope.
Local Open Scope Z_scope.

#[local] Set Warnings "-clear-no-such-hyp".

(** ** Tunables *)

Definition EMOTION_SAMPLE_INTERVAL : Q := 1%Q.
Definition EMOTION_REPORT_INTERVAL : Q := 30%Q.
Definition ALERT_THRESHOLD : Z := 5.
(** The double that the literal [0.23] denotes. *)
Definition EAR_THRESH : PrimFloat.float := (0x1.d70a3d70a3d71p-3)%float.
Definition EAR_CONSEC_FRAMES : Z := 15.

(** dlib indices (68-point model) of each eye: [list(range(42, 48))] and
    [list(range(36, 42))]. *)
Definition LEFT_EYE : list nat := seq 42 6.
Definition RIGHT_EYE : list nat := seq 36 6.

(** ** Mapping helper *)

Definition RAW_TO_HIGH : gmap string string :=
  <["angry"    := "tension/frustration"]> (
  <["fear"     := "tension/frustration"]> (
  <["disgust"  := "confusion"]> (
  <["surprise" := "confusion"]> (
  <["sad"      := "boredom"]> (
  <["happy"    := "engagement/focus"]> (
  <["neutral"  := "engagement/focus"]> ∅)))))).

Definition NEGATIVE_EMOTIONS : gset string :=
  {["tired"; "tension/frustration"; "confusion"; "boredom"]}.

(** [dict.get(key, default)]. *)
Definition dict_get {V} (d : gmap string V) (k : string) (dflt : V) : V :=
  default dflt (d !! k).

Definition harmonise (raw_face : string) (tired_flag : bool) : string :=
  if tired_flag then "tired"
  else dict_get RAW_TO_HIGH raw_face "engagement/focus".

(** The harmoniser's table as the specification words it: a case
    distinction on the raw label, with a default. *)
Definition harmonise_table_spec (r : string) : string :=
  if decide (r = "angry") then "tension/frustration"
  else if decide (r = "fear") then "tension/frustration"
  else if decide (r = "disgust") then "confusion"
  else if decide (r = "surprise") then "confusion"
  else if decide (r = "sad") then "boredom"
  else if decide (r = "happy") then "engagement/focus"
  else if decide (r = "neutral") then "engagement/focus"
  else "engagement/focus".

(** ** EAR utility *)

(** The arithmetic that [ear] uses, so that the one transcription of its
    body can be read in binary64, as the code runs it, and in exact real
    arithmetic, as its formula is meant. *)
Record arith (T : Type) : Type := Arith {
  a_add : T → T → T;
  a_sub : T → T → T;
  a_mul : T → T → T;
  a_div : T → T → T;
  a_sqrt : T → T;
  a_two : T
}.
Arguments Arith {T}.
Arguments a_add {T}.
Arguments a_sub {T}.
Arguments a_mul {T}.
Arguments a_div {T}.
Arguments a_sqrt {T}.
Arguments a_two {T}.

(** Binary64: division by zero gives an infinity, or not-a-number for
    [0 / 0], as NumPy's [float64] does (with a warning, no exception). *)
Definition float64 : arith PrimFloat.float :=
  Arith PrimFloat.add PrimFloat.sub PrimFloat.mul PrimFloat.div
        PrimFloat.sqrt 2%float.

Definition exact : arith R := Arith Rplus Rminus Rmult Rdiv R_sqrt.sqrt 2%R.

(** [scipy.spatial.distance.euclidean] on planar points: the square root of
    the dot product of the difference with itself. *)
Definition euclidean_in {T} (ops : arith T) (u v : T * T) : T :=
  let dx := a_sub ops u.1 v.1 in
  let dy := a_sub ops u.2 v.2 in
  a_sqrt ops (a_add ops (a_mul ops dx dx) (a_mul ops dy dy)).

(** The body of [ear]; [None] is the [IndexError] of a subscript out of
    range. *)
Definition ear_in {T} (ops : arith T) (pts : list (T * T)) : option T :=
  p1 ← pts !! 1%nat; p5 ← pts !! 5%nat;
  let A := euclidean_in ops p1 p5 in
  p2 ← pts !! 2%nat; p4 ← pts !! 4%nat;
  let B := euclidean_in ops p2 p4 in
  p0 ← pts !! 0%nat; p3 ← pts !! 3%nat;
  let C := euclidean_in ops p0 p3 in
  Some (a_div ops (a_add ops A B) (a_mul ops (a_two ops) C)).

Definition point : Type := PrimFloat.float * PrimFloat.float.

Definition euclidean (u v : point) : PrimFloat.float := euclidean_in float64 u v.

(** [ear(pts)] of the monitor, on rows of a NumPy array: the distances and
    the quotient are [float64] values.  dlib's landmarks are integer pixel
    coordinates; they and their differences are exact in binary64. *)
Definition ear (pts : list point) : option PrimFloat.float := ear_in float64 pts.

(** [ear(pts)] of [api.py], textually the same, on tuples of Python floats:
    the distances are Python floats, and a zero denominator raises
    [ZeroDivisionError].  [None] is either exception. *)
Definition api_ear (pts : list point) : option PrimFloat.float :=
  p1 ← pts !! 1%nat; p5 ← pts !! 5%nat;
  let A := euclidean p1 p5 in
  p2 ← pts !! 2%nat; p4 ← pts !! 4%nat;
  let B := euclidean p2 p4 in
  p0 ← pts !! 0%nat; p3 ← pts !! 3%nat;
  let C := euclidean p0 p3 in
  let denominator := PrimFloat.mul 2%float C in
  if PrimFloat.eqb denominator 0%float then None
  else Some (PrimFloat.div (PrimFloat.add A B) denominator).





(** ** Runtime globals *)

Record globals : Type := Globals {
  emotion_window : list string;
  typing_metrics : list Q;
  scroll_events : Z;
  eye_closed_counter : Z;
  key_press_times : gmap string Q
}.

(** [emotion_window, typing_metrics = [], []],
    [scroll_events, eye_closed_counter = 0, 0], [key_press_times = {}]. *)
Definition initial_globals : globals := Globals [] [] 0 0 ∅.

Definition set_emotion_window (w : list string) (g : globals) : globals :=
  Globals w (typing_metrics g) (scroll_events g) (eye_closed_counter g)
          (key_press_times g).

Definition set_eye_closed_counter (c : Z) (g : globals) : globals :=
  Globals (emotion_window g) (typing_metrics g) (scroll_events g) c
          (key_press_times g).

(** ** Webcam thread *)

(** NumPy indexing of an array of points by a list of row indices. *)
Definition fancy_index (a : list point) (idx : list nat) : option (list point) :=
  mapM (λ i, a !! i) idx.

(** The condition [ear(l_eye) < EAR_THRESH and ear(r_eye) < EAR_THRESH];
    the right operand is evaluated only when the left one holds. *)
Definition both_eyes_closed (shape_np : list point) : option bool :=
  l_eye ← fancy_index shape_np LEFT_EYE;
  r_eye ← fancy_index shape_np RIGHT_EYE;
  el ← ear l_eye;
  if PrimFloat.ltb el EAR_THRESH then
    er ← ear r_eye; Some (PrimFloat.ltb er EAR_THRESH)
  else Some false.

(** The counter update of one frame, given what was seen of the first
    face: [None] when no face was detected, [Some b] when the eye test of
    the first face evaluated to [b].  Returns the new counter and
    [tired_now]. *)
Definition debounce (seen : option bool) (counter : Z) : Z * bool :=
  match seen with
  | None => (counter, false)
  | Some true => (counter + 1, false)
  | Some false => (0, bool_decide (EAR_CONSEC_FRAMES ≤ counter))
  end.

(** One successfully read frame, as its collaborators present it:
    [faces] holds [shape_to_np(predictor(gray, rect))] for each [rect] of
    [detector(gray)], [now] is [time.time()], and [deepface] is the dominant
    emotion of [DeepFace.analyze], or [None] when that call raises. *)
Record frame : Type := Frame {
  faces : list (list point);
  now : Q;
  deepface : option string
}.

(** What the first face of a frame shows; the outer [None] is an uncaught
    exception. *)
Definition frame_seen (f : frame) : option (option bool) :=
  match faces f with
  | [] => Some None
  | shape_np :: _ => b ← both_eyes_closed shape_np; Some (Some b)
  end.

Record frame_out : Type := FrameOut {
  tired_now : bool;
  sampled : option string
}.

(** Body of the [while True] loop of [detect_emotion] for a frame with
    [ok] true ([if not ok: continue] skips the others untouched).  The
    loop-local [last_inf] is threaded next to the globals. *)
Definition detect_emotion_frame (f : frame) (st : globals * Q)
  : option (globals * Q * frame_out) :=
  let '(g, last_inf) := st in
  seen ← frame_seen f;
  let '(counter, tired) := debounce seen (eye_closed_counter g) in
  let g1 := set_eye_closed_counter counter g in
  if Qle_bool EMOTION_SAMPLE_INTERVAL (now f - last_inf) then
    let raw := default "neutral" (deepface f) in
    let label := harmonise raw tired in
    Some (set_emotion_window (emotion_window g1 ++ [label]) g1, now f,
          FrameOut tired (Some label))
  else Some (g1, last_inf, FrameOut tired None).

(** The loop over the frames read until the quit key; a failure to open
    the camera ends the thread before the first frame. *)
Fixpoint detect_emotion_run (fs : list frame) (st : globals * Q)
  : option (globals * Q * list frame_out) :=
  match fs with
  | [] => Some (st, [])
  | f :: fs' =>
      '(g, last_inf, out) ← detect_emotion_frame f st;
      '(g', last_inf', outs) ← detect_emotion_run fs' (g, last_inf);
      Some (g', last_inf', out :: outs)
  end.

(** ** Keyboard and mouse callbacks *)

(** The key is given by [str(key)]; [t] is [time.time()]. *)
Definition on_press (key : string) (t : Q) (g : globals) : globals :=
  Globals (emotion_window g) (typing_metrics g) (scroll_events g)
          (eye_closed_counter g) (<[key := t]> (key_press_times g)).

(** Returns [false] for the escape key, which stops the listener. *)
Definition on_release (key : string) (rel : Q) (g : globals) : bool * globals :=
  let prs := key_press_times g !! key in
  let metrics :=
    match prs with
    | Some p => if Qeq_bool p 0 then typing_metrics g
                else (typing_metrics g ++ [(rel - p)%Q])
    | None => typing_metrics g
    end in
  (negb (bool_decide (key = "Key.esc")),
   Globals (emotion_window g) metrics (scroll_events g)
           (eye_closed_counter g) (delete key (key_press_times g))).

Definition on_scroll (g : globals) : globals :=
  Globals (emotion_window g) (typing_metrics g) (scroll_events g + 1)
          (eye_closed_counter g) (key_press_times g).

(** ** Periodic reducer *)

(** [collections.Counter]: a dictionary in insertion order, here an
    association list whose keys appear in order of first occurrence. *)
Fixpoint counter_incr (k : string) (c : list (string * Z)) : list (string * Z) :=
  match c with
  | [] => [(k, 1)]
  | (k', n) :: c' =>
      if decide (k = k') then (k', n + 1) :: c'
      else (k', n) :: counter_incr k c'
  end.

Definition Counter (it : list string) : list (string * Z) :=
  foldl (λ c e, counter_incr e c) [] it.

(** [c[k]], which is 0 for a missing key. *)
Fixpoint counter_get (c : list (string * Z)) (k : string) : Z :=
  match c with
  | [] => 0
  | (k', n) :: c' => if decide (k = k') then n else counter_get c' k
  end.

(** [l.count(x)]. *)
Definition py_count (l : list string) (x : string) : Z :=
  Z.of_nat (length (filter (λ e, e = x) l)).

(** [max(it, key=key)]: the first element, in iteration order, whose key
    is maximal; [None] is the [ValueError] on an empty iterable. *)
Definition py_max {A} (key : A → Z) (it : list A) : option A :=
  match it with
  | [] => None
  | x :: xs => Some (foldl (λ best y, if decide (key best < key y) then y else best) x xs)
  end.

(** Iterating [set(l)]: each distinct element of [l] once, in an order that
    CPython derives from the (per-process randomised) string hashes.  The
    order is left open: the reducer is defined for any such iteration. *)
Class SetIter : Type := {
  set_iter : list string → list string;
  set_iter_NoDup : ∀ l, NoDup (set_iter l);
  set_iter_elem : ∀ l x, x ∈ set_iter l ↔ x ∈ l
}.

(** One inhabitant: each distinct element at the place of its last occurrence. *)
#[global] Instance remove_dups_iter : SetIter := {|
  set_iter := remove_dups;
  set_iter_NoDup := NoDup_remove_dups;
  set_iter_elem := λ l x, elem_of_remove_dups l x
|}.

(** The loop over [counts.items()]: the alerts started so far and the
    window as rebound by the comprehension. *)
Definition alert_step (acc : list string * list string) (item : string * Z)
  : list string * list string :=
  let '(alerts, w) := acc in
  let '(emo, cnt) := item in
  if decide (ALERT_THRESHOLD ≤ cnt) then
    ((alerts ++ [emo]), filter (λ e, e ≠ emo) w)
  else (alerts, w).

Definition alert_loop (counts : list (string * Z)) (w : list string)
  : list string * list string :=
  foldl alert_step ([], w) counts.

Definition face_mode_of `{SetIter} (w : list string) : string :=
  match w with
  | [] => "engagement/focus"
  | _ :: _ => default "engagement/focus" (py_max (py_count w) (set_iter w))
  end.

Definition Qsum (l : list Q) : Q := foldr Qplus 0%Q l.

(** Rounding of a non-negative rational to the nearest integer, ties to
    even. *)
Definition round_half_even (q : Q) : Z :=
  let n := Qnum q in
  let d := Zpos (Qden q) in
  let fl := (n / d)%Z in
  match (2 * (n mod d) ?= d)%Z with
  | Lt => fl
  | Gt => fl + 1
  | Eq => if Z.even fl then fl else fl + 1
  end.

(** The integer [e] with [2^e <= q < 2^(e+1)], for positive [q]. *)
Definition binary_exponent (q : Q) : Z :=
  let e := (Z.log2 (Qnum q) - Z.log2 (Zpos (Qden q)))%Z in
  if Qle_bool (Qpower 2 e) q then e else (e - 1)%Z.

(** The double nearest to a rational, ties to even, as its exact value:
    53 significant bits, gradual underflow below [2^-1022].  (The mean of
    doubles does not leave their range, so overflow does not arise.) *)
Definition round_double (q : Q) : Q :=
  if Qeq_bool q 0 then 0%Q
  else
    let a := Qabs q in
    let e := Z.max (binary_exponent a) (-1022) in
    let ulp := Qpower 2 (e - 52) in
    let r := (inject_Z (round_half_even (a / ulp)) * ulp)%Q in
    Qred (if Qle_bool 0 q then r else (- r)%Q).

(** [statistics.mean] of a non-empty list of floats: the data are summed
    as exact fractions and the quotient is converted to a float once. *)
Definition mean (l : list Q) : Q :=
  round_double (Qsum l / inject_Z (Z.of_nat (length l)))%Q.

(** The doubles that the literals [0.5] and [0.15] denote. *)
Definition double_0_5 : Q := 1 # 2.
Definition double_0_15 : Q := 5404319552844595 # 36028797018963968.

Definition typing_state_of (metrics : list Q) : string :=
  match metrics with
  | [] => "inactive"
  | _ :: _ =>
      let avg := mean metrics in
      if Qlt_le_dec double_0_5 avg then "confused/frustrated"
      else if Qlt_le_dec avg double_0_15 then "confident"
      else "neutral"
  end.

Definition scroll_state_of (n : Z) : string :=
  if decide (10 < n) then "impatient/restless" else "focused".

(** The cross-adjustment of the facial state by the scroll count. *)
Definition cross_adjust (face_mode : string) (n : Z) : string :=
  if decide (face_mode = "engagement/focus" ∧ 15 < n) then "boredom"
  else face_mode.

Record report : Type := Report {
  facial : string;
  typing : string;
  scrolling : string
}.

Record cycle_result : Type := CycleResult {
  alerts : list string;        (* one [show_popup] thread per entry *)
  face_mode : string;          (* as computed, before the cross-adjustment *)
  printed : report;            (* the three printed lines *)
  after : globals
}.

(** Body of the [while True] loop of [analyze_emotions], after the sleep. *)
Definition analyze_emotions_cycle `{SetIter} (g : globals) : cycle_result :=
  let counts := Counter (filter (λ e, e ∈ NEGATIVE_EMOTIONS) (emotion_window g)) in
  let '(started, w) := alert_loop counts (emotion_window g) in
  let fm := face_mode_of w in
  let typing_state := typing_state_of (typing_metrics g) in
  let scroll_state := scroll_state_of (scroll_events g) in
  CycleResult started fm
    (Report (cross_adjust fm (scroll_events g)) typing_state scroll_state)
    (Globals w [] 0 (eye_closed_counter g) (key_press_times g)).

(** The labels of the items of a [Counter] that reach the threshold, in
    item order: what the alert loop starts a popup for. *)
Definition fired (counts : list (string * Z)) : list string :=
  (filter (λ it, ALERT_THRESHOLD ≤ it.2) counts).*1.

(** *** Notions of the specification about the reducer *)

(** The Alert Dispatcher's condition on a label, relative to a window: the
    label is negative and occurs at least [ALERT_THRESHOLD] times. *)
Definition fires (w : list string) (e : string) : Prop :=
  e ∈ NEGATIVE_EMOTIONS ∧ ALERT_THRESHOLD ≤ py_count w e.

#[global] Instance fires_dec (w : list string) (e : string) : Decision (fires w e).
Proof. unfold fires. apply _. Defined.

(** [m] is a most frequent label of the window [w]. *)
Definition most_frequent (w : list string) (m : string) : Prop :=
  m ∈ w ∧ ∀ x, py_count w x ≤ py_count w m.


(** ** Single-shot endpoint ([api.py]) *)

Inductive response : Type :=
  | HTTPException (status : Z) (detail : string)
  | Ok (label : string) (score : Q)
  | Uncaught.                       (* an exception other than HTTPException *)

(** The tired flag of the handler, from [res.multi_face_landmarks] ([None]
    or a list with one landmark array per face, each landmark reduced to its
    [(x, y)]).  The outer [None] is an uncaught exception: the [IndexError]
    of a missing landmark or the [ZeroDivisionError] of [ear]. *)
Definition affect_tired (multi_face_landmarks : option (list (list point)))
  : option bool :=
  match multi_face_landmarks with
  | Some (lm :: _) =>
      l_eye ← mapM (λ i, lm !! i) LEFT_EYE;
      r_eye ← mapM (λ i, lm !! i) RIGHT_EYE;
      e ← api_ear (l_eye ++ r_eye);
      Some (PrimFloat.ltb e EAR_THRESH)
  | _ => Some false
  end.

Section Endpoint.
(** The collaborators of the handler.  [imdecode] is the image codec
    behind [cv2.imdecode], on the uploaded bytes ([None] for data it cannot
    decode); [face_mesh_process] is [face_mesh.process] on the
    colour-converted frame, threading the state [M] of the module-level
    [face_mesh] object; [deepface_analyze] gives the dominant raw emotion and
    its score, or [None] when [DeepFace.analyze] raises. *)
Context {Image M : Type}.
Variable imdecode : list Byte.byte → option Image.
Variable face_mesh_process : Image → M → option (list (list point)) * M.
Variable deepface_analyze : Image → option (string * Q).

(** [cv2.imdecode(np.frombuffer(data, np.uint8), cv2.IMREAD_COLOR)]: on an
    empty buffer OpenCV raises [cv2.error] (the outer [None]); otherwise it
    returns the image, or [None] for bytes that are not an image. *)
Definition cv2_imdecode (data : list Byte.byte) : option (option Image) :=
  match data with
  | [] => None
  | _ :: _ => Some (imdecode data)
  end.

Record upload : Type := Upload {
  content_type : string;
  body : list Byte.byte
}.

(** Everything in the process that outlives a request: the [face_mesh]
    object and the globals of the imported monitor module. *)
Record api_state : Type := ApiState {
  face_mesh : M;
  monitor : globals
}.

Definition affect (file : upload) (st : api_state) : response * api_state :=
  if decide (content_type file ∉ ["image/jpeg"; "image/png"]) then
    (HTTPException 415 "upload an image", st)
  else
    match cv2_imdecode (body file) with
    | None => (Uncaught, st)
    | Some None => (HTTPException 400 "bad image", st)
    | Some (Some frame) =>
        let '(res, m) := face_mesh_process frame (face_mesh st) in
        let st' := ApiState m (monitor st) in
        match affect_tired res with
        | None => (Uncaught, st')
        | Some tired =>
            let '(raw, score) := default ("neutral", 0%Q) (deepface_analyze frame) in
            (Ok (harmonise raw tired) score, st')
        end
    end.
End Endpoint.

(** ** Notions used to state further properties *)

(** The five labels that [harmonise] can produce. *)
Definition affect_labels : list string :=
  ["tired"; "tension/frustration"; "confusion"; "boredom"; "engagement/focus"].

(** The raw labels that the table sends to a negative state. *)
Definition negative_raw : list string :=
  ["angry"; "fear"; "disgust"; "surprise"; "sad"].

(** The distinct elements of a list in order of first occurrence. *)
Definition first_occurrences (l : list string) : list string :=
  reverse (remove_dups (reverse l)).

(** [n] scroll callbacks in a row. *)
Definition scrolls (n : nat) (g : globals) : globals := Nat.iter n on_scroll g.

(** The clock readings of the frames of a run at which a label was
    sampled, given the frames and what the loop reported for them. *)
Definition sample_times (fs : list frame) (outs : list frame_out) : list Q :=
  omap (λ fo, match sampled fo.2 with Some _ => Some (now fo.1) | None => None end)
       (zip fs outs).

(** Starting after [t], each reading is at least one sample interval after
    the one before. *)
Fixpoint spaced_from (t : Q) (ts : list Q) : Prop :=
  match ts with
  | [] => True
  | t' :: ts' => (EMOTION_SAMPLE_INTERVAL <= t' - t)%Q ∧ spaced_from t' ts'
  end.

(** ** Sample data *)

(** Six eye-contour points with the lids shut, and with the lids apart. *)
Definition shut_eye : list point :=
  [(0, 0); (1, 0); (2, 0); (3, 0); (2, 0); (1, 0)]%float.
Definition wide_eye : list point :=
  [(0, 0); (1, 1); (2, 1); (3, 0); (2, -1); (1, -1)]%float.

(** A 68-point landmark array with the given right and left eye contours
    at the rows 36..41 and 42..47. *)
Definition face_with (r_eye l_eye : list point) : list point :=
  replicate 36 (0, 0)%float ++ r_eye ++ l_eye ++ replicate 20 (0, 0)%float.

Definition shut_frame : frame := Frame [face_with shut_eye shut_eye] 0 None.
Definition wide_frame : frame := Frame [face_with wide_eye wide_eye] 0 None.

(** A stand-in codec for the examples: the bytes are their own image,
    unless the first byte is zero. *)
Definition sample_imdecode (bs : list Byte.byte) : option (list Byte.byte) :=
  match bs with Byte.x00 :: _ => None | _ => Some bs end.

(** * Verified properties *)

(** ** Harmoniser *)

Lemma RAW_TO_HIGH_lookup (r : string) :
  dict_get RAW_TO_HIGH r "engagement/focus" = harmonise_table_spec r.
Proof.
  unfold dict_get, RAW_TO_HIGH, harmonise_table_spec.
  repeat (rewrite lookup_insert; case_decide; subst;
          [ rewrite decide_True by reflexivity; reflexivity
          | rewrite decide_False by congruence ]).
  rewrite lookup_empty. reflexivity.
Qed.

(** C5. [harmonise r t] is ["tired"] whenever [t] is true; otherwise it is
    the fixed table angry/fear -> tension/frustration, disgust/surprise ->
    confusion, sad -> boredom, happy/neutral -> engagement/focus, and
    ["engagement/focus"] for every raw label outside the table. *)
Theorem harmonise_correct (r : string) (t : bool) :
  harmonise r t = (if t then "tired" else harmonise_table_spec r)
  ∧ harmonise "angry" false = "tension/frustration"
  ∧ harmonise "fear" false = "tension/frustration"
  ∧ harmonise "disgust" false = "confusion"
  ∧ harmonise "surprise" false = "confusion"
  ∧ harmonise "sad" false = "boredom"
  ∧ harmonise "happy" false = "engagement/focus"
  ∧ harmonise "neutral" false = "engagement/focus"
  ∧ harmonise "unknown_label" false = "engagement/focus"
  ∧ harmonise "happy" true = "tired".
Proof.
  split.
  - destruct t; [reflexivity|]. apply RAW_TO_HIGH_lookup.
  - repeat split; unfold harmonise; rewrite ?RAW_TO_HIGH_lookup; reflexivity.
Qed.

(** ** Counter *)

Lemma counter_get_incr (c : list (string * Z)) (k k' : string) :
  counter_get (counter_incr k c) k'
  = counter_get c k' + (if decide (k' = k) then 1 else 0).
Proof.
  induction c as [|[k0 n] c IH]; simpl.
  - repeat case_decide; lia.
  - destruct (decide (k = k0)) as [->|Hne]; simpl.
    + repeat case_decide; subst; try congruence; lia.
    + rewrite IH. repeat case_decide; subst; try congruence; lia.
Qed.

Lemma counter_incr_keys (c : list (string * Z)) (k x : string) :
  x ∈ (counter_incr k c).*1 ↔ x = k ∨ x ∈ c.*1.
Proof.
  induction c as [|[k0 n] c IH]; simpl.
  - set_solver.
  - destruct (decide (k = k0)) as [->|Hne]; simpl; set_solver.
Qed.

Lemma counter_incr_NoDup (c : list (string * Z)) (k : string) :
  NoDup c.*1 → NoDup (counter_incr k c).*1.
Proof.
  induction c as [|[k0 n] c IH]; simpl; intros Hnd.
  - apply NoDup_singleton.
  - apply NoDup_cons in Hnd as [Hnotin Hnd].
    destruct (decide (k = k0)) as [->|Hne]; simpl.
    + by apply NoDup_cons.
    + apply NoDup_cons. split; [|by apply IH].
      rewrite counter_incr_keys. intros [->|?]; done.
Qed.

Lemma counter_elem_get (c : list (string * Z)) (k : string) (n : Z) :
  NoDup c.*1 → (k, n) ∈ c ↔ k ∈ c.*1 ∧ counter_get c k = n.
Proof.
  induction c as [|[k0 m] c IH]; intros Hnd.
  - split; [intros H | intros [H _]]; inversion H.
  - rewrite fmap_cons in Hnd |- *. cbn [fst counter_get].
    apply NoDup_cons in Hnd as [Hnotin Hnd].
    rewrite !elem_of_cons, (IH Hnd).
    case_decide as Hk; [subst k0|].
    + split.
      * intros [Heq|[Hin _]]; [inversion Heq; auto | done].
      * intros [_ ->]. by left.
    + split.
      * intros [Heq|[Hin Hget]]; [by inversion Heq | by split; [right|]].
      * intros [[?|Hin] Hget]; [done | by right].
Qed.

Lemma py_count_snoc (l : list string) (x k : string) :
  py_count (l ++ [x]) k = py_count l k + (if decide (k = x) then 1 else 0).
Proof.
  unfold py_count. rewrite filter_app, length_app. simpl.
  rewrite filter_cons, filter_nil.
  repeat case_decide; subst; simpl; try congruence; lia.
Qed.

Lemma py_count_nonneg (l : list string) (k : string) : 0 ≤ py_count l k.
Proof. unfold py_count. lia. Qed.

Lemma py_count_pos (l : list string) (k : string) : 0 < py_count l k ↔ k ∈ l.
Proof.
  unfold py_count. induction l as [|x l IH].
  - cbn. split; [lia | intros H; inversion H].
  - rewrite filter_cons, elem_of_cons. case_decide; subst.
    + cbn [length]. split; [by left | lia].
    + rewrite IH. naive_solver.
Qed.

Lemma Counter_snoc (l : list string) (x : string) :
  Counter (l ++ [x]) = counter_incr x (Counter l).
Proof. unfold Counter. by rewrite foldl_snoc. Qed.

Lemma Counter_get (l : list string) (k : string) :
  counter_get (Counter l) k = py_count l k.
Proof.
  induction l as [|x l IH] using rev_ind; [done|].
  by rewrite Counter_snoc, counter_get_incr, py_count_snoc, IH.
Qed.

Lemma Counter_keys (l : list string) (k : string) :
  k ∈ (Counter l).*1 ↔ k ∈ l.
Proof.
  induction l as [|x l IH] using rev_ind; [done|].
  rewrite Counter_snoc, counter_incr_keys, IH. set_solver.
Qed.

Lemma Counter_NoDup (l : list string) : NoDup (Counter l).*1.
Proof.
  induction l as [|x l IH] using rev_ind; [apply NoDup_nil_2|].
  rewrite Counter_snoc. by apply counter_incr_NoDup.
Qed.

(** The items of a [Counter] are exactly the elements with their counts. *)
Lemma Counter_items (l : list string) (k : string) (n : Z) :
  (k, n) ∈ Counter l ↔ k ∈ l ∧ n = py_count l k.
Proof.
  rewrite counter_elem_get by apply Counter_NoDup.
  rewrite Counter_keys, Counter_get. naive_solver.
Qed.

(** ** Alert loop *)

Lemma filter_notin_nil (w : list string) : filter (λ e, e ∉ @nil string) w = w.
Proof.
  induction w as [|x w IH]; [done|].
  rewrite filter_cons_True; [by rewrite IH | apply not_elem_of_nil].
Qed.

Lemma alert_loop_from (counts : list (string * Z)) (started w : list string) :
  foldl alert_step (started, w) counts
  = (started ++ fired counts, filter (λ e, e ∉ fired counts) w).
Proof.
  revert started w. induction counts as [|[emo cnt] counts IH]; intros started w.
  - cbn [foldl]. unfold fired. rewrite filter_nil, fmap_nil, app_nil_r.
    by rewrite filter_notin_nil.
  - cbn [foldl alert_step]. unfold fired. rewrite filter_cons. cbn [snd].
    case_decide as Hcnt.
    + rewrite IH, fmap_cons, <- app_assoc. cbn [fst app]. f_equal.
      rewrite list_filter_filter. apply list_filter_iff.
      intros x. rewrite not_elem_of_cons. unfold fired. tauto.
    + apply IH.
Qed.

Lemma fired_NoDup (counts : list (string * Z)) :
  NoDup counts.*1 → NoDup (fired counts).
Proof.
  intros Hnd. apply (sublist_NoDup _ counts.*1); [exact Hnd|].
  unfold fired. apply fmap_sublist, sublist_filter.
Qed.

Lemma fired_elem (counts : list (string * Z)) (e : string) :
  e ∈ fired counts ↔ ∃ n, (e, n) ∈ counts ∧ ALERT_THRESHOLD ≤ n.
Proof.
  unfold fired. rewrite list_elem_of_fmap. split.
  - intros [[k n] [-> Hin]]. apply list_elem_of_filter in Hin as [Hn Hin].
    exists n. done.
  - intros [n [Hin Hn]]. exists (e, n). split; [done|].
    apply list_elem_of_filter. done.
Qed.

Lemma py_count_filter (P : string → Prop) `{!∀ x, Decision (P x)}
    (l : list string) (k : string) :
  P k → py_count (filter P l) k = py_count l k.
Proof.
  intros HP. unfold py_count. rewrite list_filter_filter. do 2 f_equal.
  apply list_filter_iff. intros x. split; [tauto|]. intros ->. done.
Qed.

Lemma fired_Counter_negative (w : list string) (e : string) :
  e ∈ fired (Counter (filter (λ e, e ∈ NEGATIVE_EMOTIONS) w)) ↔ fires w e.
Proof.
  rewrite fired_elem. unfold fires. split.
  - intros [n [Hin Hn]]. apply Counter_items in Hin as [Hin ->].
    apply list_elem_of_filter in Hin as [Hneg Hin].
    rewrite py_count_filter in Hn by done. done.
  - intros [Hneg Hn]. exists (py_count w e). split; [|done].
    apply Counter_items. rewrite py_count_filter by done. split; [|done].
    apply list_elem_of_filter. split; [done|].
    apply py_count_pos. unfold ALERT_THRESHOLD in Hn. lia.
Qed.

Lemma py_count_NoDup (l : list string) (e : string) :
  NoDup l → py_count l e = if decide (e ∈ l) then 1 else 0.
Proof.
  intros Hnd. unfold py_count. induction Hnd as [|x l Hx Hnd IH].
  - rewrite decide_False by apply not_elem_of_nil. done.
  - rewrite filter_cons. destruct (decide (x = e)) as [->|Hne].
    + rewrite decide_True by (by left). cbn [length].
      rewrite Nat2Z.inj_succ, IH, decide_False by done. done.
    + rewrite IH. apply decide_ext. rewrite elem_of_cons. naive_solver.
Qed.

(** The alerts and the window of a cycle do not depend on anything but the
    window the cycle starts from. *)
Lemma cycle_alerts_window `{SetIter} (g : globals) :
  alerts (analyze_emotions_cycle g)
    = fired (Counter (filter (λ e, e ∈ NEGATIVE_EMOTIONS) (emotion_window g)))
  ∧ emotion_window (after (analyze_emotions_cycle g))
    = filter (λ e, ¬ fires (emotion_window g) e) (emotion_window g).
Proof.
  unfold analyze_emotions_cycle, alert_loop. rewrite alert_loop_from.
  cbn. split; [done|].
  apply list_filter_iff. intros x. by rewrite fired_Counter_negative.
Qed.

(** C3. In a reducer cycle, each negative label occurring at least 5 times
    in the window gets exactly one alert and loses all its entries, no other
    label is alerted, and every other entry stays in the window, in place. *)
Theorem alert_dispatch_correct `{SetIter} (g : globals) :
  let r := analyze_emotions_cycle g in
  let w := emotion_window g in
  (∀ e, py_count (alerts r) e = if decide (fires w e) then 1 else 0)
  ∧ (∀ e, e ∈ alerts r ↔ fires w e)
  ∧ emotion_window (after r) = filter (λ e, ¬ fires w e) w
  ∧ (∀ e, e ∈ emotion_window (after r) ↔ e ∈ w ∧ ¬ fires w e).
Proof.
  intros r w. destruct (cycle_alerts_window g) as [Hal Hw].
  fold r in Hal, Hw. fold w in Hw. rewrite Hal, Hw.
  split; [|split; [|split]].
  - intros e. rewrite py_count_NoDup by apply fired_NoDup, Counter_NoDup.
    apply decide_ext, fired_Counter_negative.
  - intros e. apply fired_Counter_negative.
  - done.
  - intros e. rewrite list_elem_of_filter. tauto.
Qed.

(** The example of the specification: five ["confusion"] entries and one
    ["boredom"] entry. *)
Example alert_dispatch_example :
  let r := analyze_emotions_cycle
             (Globals (replicate 5 "confusion" ++ ["boredom"]) [] 0 0 ∅) in
  alerts r = ["confusion"] ∧ emotion_window (after r) = ["boredom"].
Proof. vm_compute. done. Qed.

(** ** Facial state *)

Lemma py_max_fold {A} (key : A → Z) (xs : list A) (b : A) :
  let m := foldl (λ best y, if decide (key best < key y) then y else best) b xs in
  (m = b ∨ m ∈ xs) ∧ key b ≤ key m ∧ ∀ x, x ∈ xs → key x ≤ key m.
Proof.
  revert b. induction xs as [|y xs IH]; intros b; cbn [foldl].
  - split; [by left|]. split; [lia|]. intros x Hx. inversion Hx.
  - destruct (IH (if decide (key b < key y) then y else b)) as (Hin & Hle & Hall).
    split; [|split].
    + destruct Hin as [->|Hin].
      * case_decide; [right; left | left]; done.
      * right. by right.
    + case_decide; lia.
    + intros x [->|Hx]%elem_of_cons; [case_decide; lia | by apply Hall].
Qed.

Lemma py_max_spec {A} (key : A → Z) (it : list A) :
  it ≠ [] →
  ∃ m, py_max key it = Some m ∧ m ∈ it ∧ ∀ x, x ∈ it → key x ≤ key m.
Proof.
  destruct it as [|x xs]; [done|]. intros _. eexists. split; [reflexivity|].
  destruct (py_max_fold key xs x) as (Hin & Hle & Hall). split.
  - destruct Hin as [->|Hin]; [by left | by right].
  - intros y [->|Hy]%elem_of_cons; [done | by apply Hall].
Qed.

Lemma face_mode_of_nonempty `{SetIter} (w : list string) :
  w ≠ [] → most_frequent w (face_mode_of w).
Proof.
  intros Hw.
  assert (set_iter w ≠ []) as Hne.
  { destruct w as [|x w]; [done|]. intros Hnil.
    assert (x ∈ set_iter (x :: w)) as Hx by (apply set_iter_elem; left).
    rewrite Hnil in Hx. inversion Hx. }
  destruct (py_max_spec (py_count w) (set_iter w) Hne) as (m & Hm & Hin & Hall).
  unfold face_mode_of. destruct w as [|x w]; [done|]. rewrite Hm. cbn [default from_option]. unfold Datatypes.id.
  split; [by apply set_iter_elem|].
  intros y. destruct (decide (y ∈ x :: w)) as [Hy|Hy].
  - apply Hall. by apply set_iter_elem.
  - assert (¬ 0 < py_count (x :: w) y) by (by rewrite py_count_pos).
    pose proof (py_count_nonneg (x :: w) m). lia.
Qed.

(** The fields of a cycle's result, with the pair of the alert loop
    projected away. *)
Lemma cycle_fields `{SetIter} (g : globals) :
  let r := analyze_emotions_cycle g in
  face_mode r = face_mode_of (emotion_window (after r))
  ∧ printed r = Report (cross_adjust (face_mode r) (scroll_events g))
                       (typing_state_of (typing_metrics g))
                       (scroll_state_of (scroll_events g))
  ∧ typing_metrics (after r) = []
  ∧ scroll_events (after r) = 0
  ∧ eye_closed_counter (after r) = eye_closed_counter g.
Proof.
  unfold analyze_emotions_cycle. destruct (alert_loop _ _) as [started w].
  cbn. done.
Qed.

(** C1, as the code has it. The facial state computed in a reducer cycle
    (before the cross-adjustment) is a most frequent label of the emotion
    window as the alert purge of that same cycle leaves it, and it is
    ["engagement/focus"] when that purged window is empty; the reported
    facial state is this value, cross-adjusted. *)
Theorem face_mode_after_purge `{SetIter} (g : globals) :
  let r := analyze_emotions_cycle g in
  let purged := filter (λ e, ¬ fires (emotion_window g) e) (emotion_window g) in
  emotion_window (after r) = purged
  ∧ (purged = [] ∧ face_mode r = "engagement/focus"
     ∨ purged ≠ [] ∧ most_frequent purged (face_mode r))
  ∧ facial (printed r) = cross_adjust (face_mode r) (scroll_events g).
Proof.
  intros r purged.
  destruct (cycle_alerts_window g) as [_ Hw]. fold r purged in Hw.
  destruct (cycle_fields g) as (Hfm & Hpr & _). fold r in Hfm, Hpr.
  split; [exact Hw|]. split; [|by rewrite Hpr].
  rewrite Hfm, Hw. destruct purged as [|x p] eqn:Hp.
  - left. done.
  - right. split; [done|]. by apply face_mode_of_nonempty.
Qed.

(** C1, as stated, fails.  With five ["boredom"] entries (and no scrolling)
    the window at the start of the cycle is not empty and its most frequent
    label is ["boredom"], yet the cycle reports ["engagement/focus"]: the
    purge has emptied the window before the facial state is computed.  With
    one ["engagement/focus"] entry and 16 scroll events the report is
    ["boredom"], a label that does not occur in the window at all. *)
Lemma face_mode_snapshot_counterexample :
  (let g := Globals (replicate 5 "boredom") [] 0 0 ∅ in
   emotion_window g ≠ []
   ∧ most_frequent (emotion_window g) "boredom"
   ∧ facial (printed (analyze_emotions_cycle g)) = "engagement/focus"
   ∧ ¬ most_frequent (emotion_window g)
         (facial (printed (analyze_emotions_cycle g))))
  ∧ (let g := Globals ["engagement/focus"] [] 16 0 ∅ in
     facial (printed (analyze_emotions_cycle g)) = "boredom"
     ∧ ¬ most_frequent (emotion_window g)
           (facial (printed (analyze_emotions_cycle g)))).
Proof.
  split; cbv zeta.
  - split; [done|]. split; [|split].
    + split; [cbn; by left|]. intros x. cbn [emotion_window].
      replace (py_count (replicate 5 "boredom") "boredom") with 5
        by (vm_compute; reflexivity).
      unfold py_count.
      pose proof (length_filter (λ e, e = x) (replicate 5 "boredom")) as Hl.
      rewrite length_replicate in Hl. lia.
    + vm_compute. reflexivity.
    + replace (facial (printed (analyze_emotions_cycle _)))
        with "engagement/focus" by (vm_compute; reflexivity).
      intros [Hin _]. cbn in Hin.
      repeat (apply elem_of_cons in Hin as [Hin|Hin]; [discriminate|]).
      inversion Hin.
  - split; [vm_compute; reflexivity|].
    replace (facial (printed (analyze_emotions_cycle _)))
      with "boredom" by (vm_compute; reflexivity).
    intros [Hin _]. cbn in Hin.
    repeat (apply elem_of_cons in Hin as [Hin|Hin]; [discriminate|]).
    inversion Hin.
Qed.

(** ** Cross-adjustment *)

(** C4. The reported facial state is ["boredom"] when the computed facial
    state is ["engagement/focus"] and the scroll count exceeds 15; in every
    other case it is the computed facial state, unchanged. *)
Theorem cross_adjustment_rule `{SetIter} (g : globals) :
  let r := analyze_emotions_cycle g in
  let n := scroll_events g in
  (face_mode r = "engagement/focus" ∧ 15 < n ∧ facial (printed r) = "boredom")
  ∨ (¬ (face_mode r = "engagement/focus" ∧ 15 < n)
     ∧ facial (printed r) = face_mode r).
Proof.
  intros r n.
  destruct (cycle_fields g) as (_ & Hpr & _). fold r n in Hpr.
  rewrite Hpr. cbn [facial]. unfold cross_adjust. case_decide as Hc.
  - left. tauto.
  - right. done.
Qed.

(** The two reducer examples of the specification.  In the first one the
    five ["boredom"] entries are purged by their own alert, so the computed
    state is the default and ["boredom"] is reported through the
    cross-adjustment. *)
Example reducer_examples :
  (let r := analyze_emotions_cycle (Globals (replicate 5 "boredom") [] 20 0 ∅) in
   face_mode r = "engagement/focus"
   ∧ printed r = Report "boredom" "inactive" "impatient/restless")
  ∧ (let r := analyze_emotions_cycle
                (Globals (replicate 5 "engagement/focus") [] 16 0 ∅) in
     face_mode r = "engagement/focus" ∧ facial (printed r) = "boredom").
Proof. vm_compute. done. Qed.

(** ** Idle cycles *)






(** ** Eye aspect ratio *)

(** *** In exact arithmetic *)







(** *** In binary64 *)


(** [ear] reads the subscripts 0 to 5 only. *)
Lemma api_ear_app (l r : list point) :
  (6 ≤ length l)%nat → api_ear (l ++ r) = api_ear l.
Proof.
  intros Hl. unfold api_ear. by rewrite !lookup_app_l by lia.
Qed.

Lemma ear_sample_eyes :
  ear shut_eye = Some 0%float
  ∧ ear wide_eye = Some (0x1.5555555555555p-1)%float
  ∧ api_ear shut_eye = Some 0%float
  ∧ api_ear wide_eye = Some (0x1.5555555555555p-1)%float.
Proof. repeat split; vm_compute; reflexivity. Qed.

(** ** Eye-closure debouncer *)

(** One frame, given what its first face shows: the frame is processed,
    the counter and [tired_now] are those of [debounce], and nothing but the
    counter and the emotion window changes. *)
Lemma detect_emotion_frame_seen (f : frame) (g : globals) (last_inf : Q)
    (seen : option bool) :
  frame_seen f = Some seen →
  ∃ g' last_inf' out,
    detect_emotion_frame f (g, last_inf) = Some (g', last_inf', out)
    ∧ eye_closed_counter g' = (debounce seen (eye_closed_counter g)).1
    ∧ tired_now out = (debounce seen (eye_closed_counter g)).2.
Proof.
  intros Hseen. unfold detect_emotion_frame. rewrite Hseen. cbn [mbind option_bind].
  destruct (debounce seen (eye_closed_counter g)) as [counter tired].
  destruct (Qle_bool _ _); eexists _, _, _; (split; [reflexivity|]); done.
Qed.

Lemma detect_emotion_run_app (fs1 fs2 : list frame) (st : globals * Q) :
  detect_emotion_run (fs1 ++ fs2) st
  = '(g, last_inf, outs1) ← detect_emotion_run fs1 st;
    '(g', last_inf', outs2) ← detect_emotion_run fs2 (g, last_inf);
    Some (g', last_inf', outs1 ++ outs2).
Proof.
  revert st. induction fs1 as [|f fs1 IH]; intros [g0 li0].
  - cbn. destruct (detect_emotion_run fs2 (g0, li0)) as [[[g' li'] outs]|]; done.
  - cbn [app detect_emotion_run].
    destruct (detect_emotion_frame f (g0, li0)) as [[[g li] out]|]; [|done].
    cbn [mbind option_bind]. rewrite IH.
    destruct (detect_emotion_run fs1 (g, li)) as [[[g1 li1] outs1]|]; [|done].
    cbn [mbind option_bind].
    destruct (detect_emotion_run fs2 (g1, li1)) as [[[g2 li2] outs2]|]; done.
Qed.

(** A run of frames that all show closed eyes: every frame reports
    [tired_now] false and the counter grows by the number of frames. *)
Lemma closed_frames_run (cs : list frame) (g : globals) (last_inf : Q) :
  Forall (λ f, frame_seen f = Some (Some true)) cs →
  ∃ g' last_inf' outs,
    detect_emotion_run cs (g, last_inf) = Some (g', last_inf', outs)
    ∧ eye_closed_counter g' = eye_closed_counter g + Z.of_nat (length cs)
    ∧ tired_now <$> outs = replicate (length cs) false.
Proof.
  intros Hcs. revert g last_inf.
  induction Hcs as [|f cs Hf _ IH]; intros g last_inf.
  - eexists _, _, _. split; [reflexivity|]. split; [cbn; lia | done].
  - destruct (detect_emotion_frame_seen f g last_inf _ Hf)
      as (g1 & li1 & out & Hstep & Hc1 & Ht1).
    destruct (IH g1 li1) as (g2 & li2 & outs & Hrun & Hc2 & Ht2).
    exists g2, li2, (out :: outs). cbn [detect_emotion_run].
    rewrite Hstep. cbn [mbind option_bind]. rewrite Hrun. cbn [mbind option_bind].
    split; [reflexivity|]. split.
    + rewrite Hc2, Hc1. cbn [debounce fst length]. lia.
    + rewrite fmap_cons, Ht2, Ht1. reflexivity.
Qed.

(** C2. Starting from counter 0, a run of frames with both eyes closed
    followed by one frame with the eyes open reports [tired_now] false on
    every closed frame and, on the open frame, true exactly when the run had
    at least 15 frames, and leaves the counter at 0: after 14 closed frames
    nothing is reported, after 15 the 16th frame alone reports tired.  A
    frame with both eyes closed reports false whatever the counter is. *)
Theorem debounce_run (cs : list frame) (o : frame) (g : globals) (last_inf : Q) :
  eye_closed_counter g = 0 →
  Forall (λ f, frame_seen f = Some (Some true)) cs →
  frame_seen o = Some (Some false) →
  (∃ g' last_inf' outs,
     detect_emotion_run (cs ++ [o]) (g, last_inf) = Some (g', last_inf', outs)
     ∧ eye_closed_counter g' = 0
     ∧ tired_now <$> outs
       = replicate (length cs) false
         ++ [bool_decide (EAR_CONSEC_FRAMES ≤ Z.of_nat (length cs))]
     ∧ (length cs = 14%nat → tired_now <$> outs = replicate 15 false)
     ∧ (length cs = 15%nat → tired_now <$> outs = replicate 15 false ++ [true]))
  ∧ (∀ f g0 l0, frame_seen f = Some (Some true) →
       ∃ g1 l1 out, detect_emotion_frame f (g0, l0) = Some (g1, l1, out)
                    ∧ tired_now out = false
                    ∧ eye_closed_counter g1 = eye_closed_counter g0 + 1).
Proof.
  intros Hzero Hcs Ho. split.
  - destruct (closed_frames_run cs g last_inf Hcs)
      as (g1 & li1 & outs & Hrun & Hc1 & Ht1).
    destruct (detect_emotion_frame_seen o g1 li1 _ Ho)
      as (g2 & li2 & out & Hstep & Hc2 & Ht2).
    exists g2, li2, (outs ++ [out]).
    assert (tired_now <$> outs ++ [out]
            = replicate (length cs) false
              ++ [bool_decide (EAR_CONSEC_FRAMES ≤ Z.of_nat (length cs))]) as Hts.
    { rewrite fmap_app, Ht1. cbn [fmap list_fmap]. rewrite Ht2, Hc1, Hzero.
      cbn [debounce snd]. by rewrite Z.add_0_l. }
    split; [|split; [|split; [|split]]].
    + rewrite detect_emotion_run_app, Hrun. cbn [mbind option_bind].
      cbn [detect_emotion_run]. rewrite Hstep. reflexivity.
    + rewrite Hc2. reflexivity.
    + exact Hts.
    + intros Hlen. rewrite Hts, Hlen. reflexivity.
    + intros Hlen. rewrite Hts, Hlen. reflexivity.
  - intros f g0 l0 Hf.
    destruct (detect_emotion_frame_seen f g0 l0 _ Hf)
      as (g1 & l1 & out & Hstep & Hc & Ht).
    exists g1, l1, out. done.
Qed.

(** C9. A frame without a detected face is processed with [tired_now]
    false and leaves the counter of consecutive closed frames as it was. *)
Theorem no_face_frame (f : frame) (g : globals) (last_inf : Q) :
  faces f = [] →
  ∃ g' last_inf' out,
    detect_emotion_frame f (g, last_inf) = Some (g', last_inf', out)
    ∧ tired_now out = false
    ∧ eye_closed_counter g' = eye_closed_counter g.
Proof.
  intros Hfaces.
  assert (frame_seen f = Some None) as Hseen by (unfold frame_seen; by rewrite Hfaces).
  destruct (detect_emotion_frame_seen f g last_inf _ Hseen)
    as (g1 & l1 & out & Hstep & Hc & Ht).
  exists g1, l1, out. done.
Qed.

(** A frame without faces met with the counter at 9. *)
Lemma no_face_frame_witness :
  ∃ g' last_inf' out,
    detect_emotion_frame (Frame [] 7 (Some "sad"))
      (Globals ["boredom"] [] 2 9 ∅, 3%Q) = Some (g', last_inf', out)
    ∧ tired_now out = false
    ∧ eye_closed_counter g' = 9.
Proof.
  apply (no_face_frame (Frame [] 7 (Some "sad")) (Globals ["boredom"] [] 2 9 ∅) 3%Q).
  reflexivity.
Defined.

(** *** The sample frames *)

Lemma face_with_eyes (r_eye l_eye : list point) :
  length r_eye = 6%nat → length l_eye = 6%nat →
  fancy_index (face_with r_eye l_eye) LEFT_EYE = Some l_eye
  ∧ fancy_index (face_with r_eye l_eye) RIGHT_EYE = Some r_eye.
Proof.
  intros Hr Hl.
  destruct r_eye as [|r0 [|r1 [|r2 [|r3 [|r4 [|r5 [|]]]]]]]; try discriminate Hr.
  destruct l_eye as [|l0 [|l1 [|l2 [|l3 [|l4 [|l5 [|]]]]]]]; try discriminate Hl.
  split; reflexivity.
Qed.

Lemma frame_seen_shut : frame_seen shut_frame = Some (Some true).
Proof. vm_compute. reflexivity. Qed.

Lemma frame_seen_wide : frame_seen wide_frame = Some (Some false).
Proof. vm_compute. reflexivity. Qed.

(** Fifteen frames with the eyes shut, then one with the eyes wide open. *)
Lemma debounce_run_witness :
  (∃ g' last_inf' outs,
     detect_emotion_run (replicate 15 shut_frame ++ [wide_frame])
       (initial_globals, 0%Q) = Some (g', last_inf', outs)
     ∧ eye_closed_counter g' = 0
     ∧ tired_now <$> outs
       = replicate (length (replicate 15 shut_frame)) false
         ++ [bool_decide
               (EAR_CONSEC_FRAMES ≤ Z.of_nat (length (replicate 15 shut_frame)))]
     ∧ (length (replicate 15 shut_frame) = 14%nat
        → tired_now <$> outs = replicate 15 false)
     ∧ (length (replicate 15 shut_frame) = 15%nat
        → tired_now <$> outs = replicate 15 false ++ [true]))
  ∧ (∀ f g0 l0, frame_seen f = Some (Some true) →
       ∃ g1 l1 out, detect_emotion_frame f (g0, l0) = Some (g1, l1, out)
                    ∧ tired_now out = false
                    ∧ eye_closed_counter g1 = eye_closed_counter g0 + 1).
Proof.
  apply (debounce_run (replicate 15 shut_frame) wide_frame initial_globals 0%Q).
  - reflexivity.
  - apply Forall_replicate, frame_seen_shut.
  - apply frame_seen_wide.
Defined.

(** ** Single-shot endpoint *)

Lemma mapM_lookup_agree (a b : list point) (idx : list nat) :
  (∀ i, i ∈ idx → a !! i = b !! i) →
  mapM (λ i, a !! i) idx = mapM (λ i, b !! i) idx.
Proof.
  induction idx as [|i idx IH]; intros Hagree; [done|].
  cbn [mapM]. rewrite (Hagree i) by (by left).
  rewrite IH; [done|]. intros j Hj. apply Hagree. by right.
Qed.

Lemma mapM_lookup_is_Some (a : list point) (idx : list nat) :
  is_Some (mapM (λ i, a !! i) idx) ↔ Forall (λ i, (i < length a)%nat) idx.
Proof.
  rewrite mapM_is_Some. apply Forall_proper; [|done].
  intros i. cbn. apply lookup_lt_is_Some.
Qed.

Lemma eyes_disjoint (i : nat) : i ∈ LEFT_EYE → i ∉ RIGHT_EYE.
Proof. unfold LEFT_EYE, RIGHT_EYE. rewrite !elem_of_seq. lia. Qed.

(** C6. When a face is detected, the tired flag of the endpoint is a
    function of the six left-eye landmarks: two landmark arrays of the same
    length that agree everywhere outside the right-eye rows give the same
    flag (and the same failure, if rows are missing). *)
Theorem tired_ignores_right_eye (lm1 lm2 : list point)
    (others1 others2 : list (list point)) :
  length lm1 = length lm2 →
  (∀ i, i ∉ RIGHT_EYE → lm1 !! i = lm2 !! i) →
  affect_tired (Some (lm1 :: others1)) = affect_tired (Some (lm2 :: others2)).
Proof.
  intros Hlen Hagree. unfold affect_tired.
  rewrite (mapM_lookup_agree lm1 lm2 LEFT_EYE)
    by (intros i Hi; by apply Hagree, eyes_disjoint).
  destruct (mapM (λ i, lm2 !! i) LEFT_EYE) as [l_eye|] eqn:Hl; [|done].
  apply length_mapM in Hl. cbn in Hl. cbn [mbind option_bind].
  pose proof (mapM_lookup_is_Some lm1 RIGHT_EYE) as H1.
  pose proof (mapM_lookup_is_Some lm2 RIGHT_EYE) as H2.
  rewrite Hlen, <- H2 in H1.
  destruct (mapM (λ i, lm1 !! i) RIGHT_EYE) as [r1|],
           (mapM (λ i, lm2 !! i) RIGHT_EYE) as [r2|]; cbn [mbind option_bind].
  - rewrite !api_ear_app by lia. done.
  - destruct H1 as [H1 _]. destruct H1 as [? ?]; [by eexists | done].
  - destruct H1 as [_ H1]. destruct H1 as [? ?]; [by eexists | done].
  - done.
Qed.

Lemma face_with_agree (r1 r2 l_eye : list point) :
  length r1 = 6%nat → length r2 = 6%nat →
  ∀ i, i ∉ RIGHT_EYE → face_with r1 l_eye !! i = face_with r2 l_eye !! i.
Proof.
  intros Hr1 Hr2 i Hi. unfold face_with.
  destruct (decide (i < 36)%nat) as [Hlt|Hge].
  - by rewrite !lookup_app_l by (rewrite length_replicate; lia).
  - assert (¬ (i < 42)%nat) as Hge2.
    { intros Hlt. apply Hi. unfold RIGHT_EYE. rewrite elem_of_seq. lia. }
    rewrite !(lookup_app_r (replicate 36 _)) by (rewrite length_replicate; lia).
    rewrite length_replicate.
    rewrite (lookup_app_r r1), (lookup_app_r r2) by lia. by rewrite Hr1, Hr2.
Qed.

(** Two sample faces that differ in the right eye only. *)
Lemma tired_ignores_right_eye_witness :
  affect_tired (Some [face_with shut_eye wide_eye])
  = affect_tired (Some [face_with wide_eye wide_eye]).
Proof.
  apply (tired_ignores_right_eye (face_with shut_eye wide_eye)
           (face_with wide_eye wide_eye) [] []).
  - reflexivity.
  - apply face_with_agree; reflexivity.
Defined.

(** The flag does follow the left eye: exchanging the two contours of the
    sample face flips it. *)
Lemma tired_follows_left_eye :
  affect_tired (Some [face_with wide_eye shut_eye]) = Some true
  ∧ affect_tired (Some [face_with shut_eye wide_eye]) = Some false.
Proof. split; vm_compute; reflexivity. Qed.

Section EndpointProperties.
Context {Image M : Type}.
Variable imdecode : list Byte.byte → option Image.
Variable face_mesh_process : Image → M → option (list (list point)) * M.
Variable deepface_analyze : Image → option (string * Q).

(** The two rejections of the handler: an upload whose content type is
    neither image/jpeg nor image/png is answered with status 415; one of an
    accepted type whose bytes [cv2.imdecode] returns [None] for is answered
    with status 400; in both cases the state of the process is exactly what
    it was. *)
Lemma affect_rejections (file : upload) (st : api_state (M := M)) :
  (content_type file ∉ ["image/jpeg"; "image/png"] →
     affect imdecode face_mesh_process deepface_analyze file st
     = (HTTPException 415 "upload an image", st))
  ∧ (content_type file ∈ ["image/jpeg"; "image/png"] →
     cv2_imdecode imdecode (body file) = Some None →
     affect imdecode face_mesh_process deepface_analyze file st
     = (HTTPException 400 "bad image", st)).
Proof.
  unfold affect. split.
  - intros Hct. by rewrite decide_True.
  - intros Hct Hdec. rewrite decide_False by (intros Hn; by apply Hn).
    by rewrite Hdec.
Qed.

(** C7, at the input where the code departs from it. An empty upload of an
    accepted content type is data that does not decode to an image, yet it
    is not answered with status 400: [cv2.imdecode] raises on the empty
    buffer before the handler tests its result, and the request ends in an
    uncaught exception.  The state of the process is unchanged. *)
Theorem affect_empty_upload (st : api_state (M := M)) :
  affect imdecode face_mesh_process deepface_analyze (Upload "image/png" []) st
  = (Uncaught, st)
  ∧ affect imdecode face_mesh_process deepface_analyze (Upload "image/jpeg" []) st
    = (Uncaught, st).
Proof. split; reflexivity. Qed.
End EndpointProperties.

(** X29. An upload whose content type is neither image/jpeg nor image/png
    is answered with status 415; a non-empty upload of an accepted type
    whose bytes are not an image is answered with status 400; in both cases
    the state of the process is exactly what it was. *)
Theorem affect_rejects {Image M : Type} (imdecode : list Byte.byte → option Image)
    (face_mesh_process : Image → M → option (list (list point)) * M)
    (deepface_analyze : Image → option (string * Q))
    (file : upload) (st : api_state (M := M)) :
  (content_type file ∉ ["image/jpeg"; "image/png"] →
     affect imdecode face_mesh_process deepface_analyze file st
     = (HTTPException 415 "upload an image", st))
  ∧ (content_type file ∈ ["image/jpeg"; "image/png"] →
     body file ≠ [] →
     imdecode (body file) = None →
     affect imdecode face_mesh_process deepface_analyze file st
     = (HTTPException 400 "bad image", st)).
Proof.
  destruct (affect_rejections imdecode face_mesh_process deepface_analyze file st)
    as [H415 H400].
  split; [exact H415|]. intros Hct Hne Hdec. apply H400; [done|].
  unfold cv2_imdecode. destruct (body file); [done|]. by rewrite Hdec.
Qed.

(** A text upload, and a PNG upload whose single byte is not an image. *)
Lemma affect_rejects_witness :
  let affect :=
    affect sample_imdecode (λ _ (m : nat), (None, S m)) (λ _, None) in
  let st := ApiState 0%nat initial_globals in
  affect (Upload "text/plain" [Byte.x01]) st
    = (HTTPException 415 "upload an image", st)
  ∧ affect (Upload "image/png" [Byte.x00]) st
    = (HTTPException 400 "bad image", st).
Proof.
  cbv zeta. split.
  - apply (affect_rejects sample_imdecode (λ _ (m : nat), (None, S m)) (λ _, None)
             (Upload "text/plain" [Byte.x01])).
    cbn. intros Hin.
    repeat (apply elem_of_cons in Hin as [Hin|Hin]; [discriminate|]).
    inversion Hin.
  - apply (affect_rejects sample_imdecode (λ _ (m : nat), (None, S m)) (λ _, None)
             (Upload "image/png" [Byte.x00])).
    + cbn. right. left.
    + done.
    + reflexivity.
Defined.

(** * Further properties *)

(** ** Harmoniser and eye aspect ratio *)

Lemma harmonise_label (r : string) (t : bool) : harmonise r t ∈ affect_labels.
Proof.
  unfold harmonise, affect_labels. destruct t; [by left|].
  rewrite RAW_TO_HIGH_lookup. unfold harmonise_table_spec.
  repeat case_decide; rewrite !elem_of_cons; tauto.
Qed.

(** X1. Whatever the raw label and the flag, [harmonise] returns one of the
    five affect labels, and every one of the five is returned for some
    input. *)
Theorem harmonise_range (lab : string) :
  lab ∈ affect_labels ↔ ∃ r t, harmonise r t = lab.
Proof.
  split.
  - unfold affect_labels. rewrite !elem_of_cons, elem_of_nil.
    intros [->|[->|[->|[->|[->|[]]]]]].
    + by exists "", true.
    + by exists "angry", false.
    + by exists "disgust", false.
    + by exists "sad", false.
    + by exists "happy", false.
  - intros (r & t & <-). apply harmonise_label.
Qed.

Lemma negative_emotions_elem (e : string) :
  e ∈ NEGATIVE_EMOTIONS
  ↔ e = "tired" ∨ e = "tension/frustration" ∨ e = "confusion" ∨ e = "boredom".
Proof. unfold NEGATIVE_EMOTIONS. set_solver. Qed.

(** X2. The harmonised label is a negative one exactly when the tired flag
    is set or the raw label is angry, fear, disgust, surprise or sad; in
    every other case, unknown raw labels included, it is
    ["engagement/focus"]. *)
Theorem harmonise_negative_iff (r : string) (t : bool) :
  (harmonise r t ∈ NEGATIVE_EMOTIONS ↔ t = true ∨ r ∈ negative_raw)
  ∧ (harmonise r t ∉ NEGATIVE_EMOTIONS ↔ harmonise r t = "engagement/focus").
Proof.
  rewrite negative_emotions_elem. unfold harmonise, negative_raw.
  destruct t.
  - split; split; intros; solve [tauto | discriminate | naive_solver].
  - rewrite RAW_TO_HIGH_lookup. unfold harmonise_table_spec.
    rewrite !elem_of_cons, elem_of_nil.
    repeat case_decide; subst; split; split; intros;
      solve [done | tauto | naive_solver].
Qed.

Lemma six_points {A} (pts : list A) :
  (6 ≤ length pts)%nat →
  ∃ p0 p1 p2 p3 p4 p5 rest, pts = p0 :: p1 :: p2 :: p3 :: p4 :: p5 :: rest.
Proof.
  intros Hlen.
  destruct pts as [|p0 [|p1 [|p2 [|p3 [|p4 [|p5 rest]]]]]]; cbn in Hlen; try lia.
  by eexists _, _, _, _, _, _, _.
Qed.


(** With coincident corners the monitor's copy returns not-a-number (or an
    infinity) where the endpoint's copy raises. *)
Example ear_coincident_corners :
  ear [(0, 0); (2, 1); (4, 1); (0, 0); (4, 1); (2, 1)]%float = Some nan
  ∧ ear [(0, 0); (2, 1); (4, 1); (0, 0); (3, -1); (1, -1)]%float = Some infinity
  ∧ api_ear [(0, 0); (2, 1); (4, 1); (0, 0); (3, -1); (1, -1)]%float = None.
Proof. repeat split; vm_compute; reflexivity. Qed.

(** An integer contour whose exact ratio is 23/100: in binary64 the
    quotient is 0.22999999999999998, below the threshold. *)
Example ear_rounds_below_threshold :
  ear [(50, 50); (23, 23); (5, 5); (0, 0); (5, 5); (0, 0)]%float
  = Some (0x1.d70a3d70a3d70p-3)%float
  ∧ PrimFloat.ltb (0x1.d70a3d70a3d70p-3)%float EAR_THRESH = true.
Proof. split; vm_compute; reflexivity. Qed.

(** ** Webcam loop *)

Lemma fancy_index_is_Some (a : list point) (idx : list nat) :
  is_Some (fancy_index a idx) ↔ Forall (λ i, (i < length a)%nat) idx.
Proof. apply mapM_lookup_is_Some. Qed.

Lemma eye_rows_in_range (a : list point) :
  (Forall (λ i, (i < length a)%nat) LEFT_EYE ↔ (48 ≤ length a)%nat)
  ∧ (Forall (λ i, (i < length a)%nat) RIGHT_EYE ↔ (42 ≤ length a)%nat).
Proof.
  unfold LEFT_EYE, RIGHT_EYE. rewrite !Forall_forall. split; split.
  - intros Hall. specialize (Hall 47%nat). rewrite elem_of_seq in Hall. lia.
  - intros Hlen i Hi. rewrite elem_of_seq in Hi. lia.
  - intros Hall. specialize (Hall 41%nat). rewrite elem_of_seq in Hall. lia.
  - intros Hlen i Hi. rewrite elem_of_seq in Hi. lia.
Qed.

Lemma ear_six (pts : list point) : length pts = 6%nat → is_Some (ear pts).
Proof.
  intros Hlen.
  destruct (six_points pts) as (p0 & p1 & p2 & p3 & p4 & p5 & rest & ->); [lia|].
  by eexists.
Qed.

(** X6. The eye test of a face is evaluated without an index error exactly
    when the landmark array has at least 48 rows; so never with an error on
    the 68 rows the dlib predictor returns. *)
Theorem both_eyes_closed_defined (shape_np : list point) :
  is_Some (both_eyes_closed shape_np) ↔ (48 ≤ length shape_np)%nat.
Proof.
  unfold both_eyes_closed.
  pose proof (fancy_index_is_Some shape_np LEFT_EYE) as HL.
  pose proof (fancy_index_is_Some shape_np RIGHT_EYE) as HR.
  destruct (eye_rows_in_range shape_np) as [HLr HRr].
  rewrite HLr in HL. rewrite HRr in HR.
  destruct (fancy_index shape_np LEFT_EYE) as [l_eye|] eqn:El; cbn [mbind option_bind].
  - assert (48 ≤ length shape_np)%nat as Hlen by (apply HL; by eexists).
    destruct (fancy_index shape_np RIGHT_EYE) as [r_eye|] eqn:Er;
      cbn [mbind option_bind].
    + apply length_mapM in El, Er. cbn in El, Er.
      destruct (ear_six l_eye) as [el ->]; [done|].
      destruct (ear_six r_eye) as [er ->]; [done|].
      cbn [mbind option_bind]. destruct (PrimFloat.ltb el EAR_THRESH); cbn; split; eauto.
    + exfalso. assert (is_Some (@None (list point))) as [? ?]; [|done].
      apply HR. lia.
  - split; [intros [? ?]; done|]. intros Hlen. apply HL in Hlen as [? ?]. done.
Qed.

(** The step of a frame, whatever it shows, when it is processed. *)
Lemma detect_emotion_frame_inv (f : frame) (g g' : globals) (l l' : Q)
    (out : frame_out) :
  detect_emotion_frame f (g, l) = Some (g', l', out) →
  ∃ seen, frame_seen f = Some seen
    ∧ eye_closed_counter g' = (debounce seen (eye_closed_counter g)).1
    ∧ tired_now out = (debounce seen (eye_closed_counter g)).2
    ∧ typing_metrics g' = typing_metrics g
    ∧ scroll_events g' = scroll_events g
    ∧ key_press_times g' = key_press_times g
    ∧ emotion_window g' = emotion_window g ++ option_list (sampled out)
    ∧ (∀ lab, sampled out = Some lab →
         lab = harmonise (default "neutral" (deepface f)) (tired_now out)).
Proof.
  unfold detect_emotion_frame. intros Hstep.
  destruct (frame_seen f) as [seen|]; [|discriminate Hstep].
  cbn [mbind option_bind] in Hstep. exists seen. split; [done|].
  destruct (debounce seen (eye_closed_counter g)) as [counter tired].
  destruct (Qle_bool _ _); injection Hstep as <- <- <-; cbn.
  - repeat split; try done. by intros lab [= <-].
  - rewrite app_nil_r. repeat split; try done.
Qed.

(** X7. A processed frame never makes the counter negative and raises it
    by at most one; it reports tired only if the counter had reached 15, and
    the counter is then reset to 0. *)
Theorem frame_counter_step (f : frame) (g g' : globals) (l l' : Q)
    (out : frame_out) :
  detect_emotion_frame f (g, l) = Some (g', l', out) →
  0 ≤ eye_closed_counter g →
  0 ≤ eye_closed_counter g' ≤ eye_closed_counter g + 1
  ∧ (tired_now out = true →
     EAR_CONSEC_FRAMES ≤ eye_closed_counter g ∧ eye_closed_counter g' = 0).
Proof.
  intros Hstep Hc.
  destruct (detect_emotion_frame_inv _ _ _ _ _ _ Hstep)
    as (seen & _ & -> & -> & _).
  destruct seen as [[|]|]; cbn [debounce fst snd].
  - split; [lia | discriminate].
  - split; [lia|]. intros Ht. apply bool_decide_eq_true_1 in Ht. done.
  - split; [lia | discriminate].
Qed.

(** A frame with closed eyes met with the counter at 3. *)
Lemma frame_counter_step_witness :
  ∃ g' l' out,
    detect_emotion_frame shut_frame (Globals [] [] 0 3 ∅, 0%Q) = Some (g', l', out)
    ∧ 0 ≤ eye_closed_counter g' ≤ 3 + 1
    ∧ (tired_now out = true →
       EAR_CONSEC_FRAMES ≤ 3 ∧ eye_closed_counter g' = 0).
Proof.
  destruct (detect_emotion_frame_seen shut_frame (Globals [] [] 0 3 ∅) 0%Q _
              frame_seen_shut) as (g' & l' & out & Hstep & _).
  exists g', l', out. split; [exact Hstep|].
  apply (frame_counter_step shut_frame (Globals [] [] 0 3 ∅) g' 0%Q l' out Hstep).
  cbn. lia.
Defined.

Lemma detect_emotion_run_cons_inv (f : frame) (fs : list frame)
    (g g' : globals) (l l' : Q) (outs : list frame_out) :
  detect_emotion_run (f :: fs) (g, l) = Some (g', l', outs) →
  ∃ g1 l1 out outs',
    detect_emotion_frame f (g, l) = Some (g1, l1, out)
    ∧ detect_emotion_run fs (g1, l1) = Some (g', l', outs')
    ∧ outs = out :: outs'.
Proof.
  cbn [detect_emotion_run]. intros Hrun.
  destruct (detect_emotion_frame f (g, l)) as [[[g1 l1] out]|] eqn:Hstep;
    [|discriminate Hrun].
  cbn [mbind option_bind] in Hrun.
  destruct (detect_emotion_run fs (g1, l1)) as [[[g2 l2] outs']|] eqn:Hrest;
    [|discriminate Hrun].
  cbn in Hrun. injection Hrun as <- <- <-.
  exists g1, l1, out, outs'. done.
Qed.

Lemma run_tired_bound (fs : list frame) (g g' : globals) (l l' : Q)
    (outs : list frame_out) :
  detect_emotion_run fs (g, l) = Some (g', l', outs) →
  0 ≤ eye_closed_counter g →
  length outs = length fs
  ∧ 0 ≤ eye_closed_counter g' ≤ eye_closed_counter g + Z.of_nat (length fs)
  ∧ ∀ i out, outs !! i = Some out → tired_now out = true →
      EAR_CONSEC_FRAMES ≤ eye_closed_counter g + Z.of_nat i.
Proof.
  revert g l outs. induction fs as [|f fs IH]; intros g l outs Hrun Hc.
  - injection Hrun as <- <- <-. split; [done|]. split; [cbn; lia|].
    intros i out Hi. by rewrite lookup_nil in Hi.
  - apply detect_emotion_run_cons_inv in Hrun
      as (g1 & l1 & out & outs' & Hstep & Hrun & ->).
    destruct (detect_emotion_frame_inv _ _ _ _ _ _ Hstep)
      as (seen & _ & Hc1 & Ht1 & _).
    assert (0 ≤ eye_closed_counter g1 ≤ eye_closed_counter g + 1) as Hb.
    { rewrite Hc1. destruct seen as [[|]|]; cbn [debounce fst]; lia. }
    destruct (IH g1 l1 outs' Hrun) as (Hlen & Hc' & Hall); [lia|].
    split; [cbn; lia|]. split; [cbn [length]; lia|].
    intros [|i] o Hi Ht; cbn in Hi.
    + injection Hi as <-. rewrite Ht1 in Ht.
      destruct seen as [[|]|]; cbn [debounce snd] in Ht; try discriminate.
      apply bool_decide_eq_true_1 in Ht. lia.
    + specialize (Hall i o Hi Ht). lia.
Qed.

(** X8. Starting from counter 0, whatever the frames show, tired is never
    reported on one of the first 15 processed frames, and the counter never
    exceeds the number of frames processed. *)
Theorem no_tired_before_15 (fs : list frame) (g g' : globals) (l l' : Q)
    (outs : list frame_out) :
  detect_emotion_run fs (g, l) = Some (g', l', outs) →
  eye_closed_counter g = 0 →
  0 ≤ eye_closed_counter g' ≤ Z.of_nat (length fs)
  ∧ ∀ i out, outs !! i = Some out → tired_now out = true → (15 ≤ i)%nat.
Proof.
  intros Hrun Hzero.
  destruct (run_tired_bound fs g g' l l' outs Hrun) as (_ & Hc & Hall); [lia|].
  split; [lia|]. intros i out Hi Ht. specialize (Hall i out Hi Ht).
  unfold EAR_CONSEC_FRAMES in Hall. lia.
Qed.

Lemma run_succeeds_on_seen (fs : list frame) (g : globals) (l : Q) :
  Forall (λ f, is_Some (frame_seen f)) fs →
  is_Some (detect_emotion_run fs (g, l)).
Proof.
  intros Hfs. revert g l. induction Hfs as [|f fs [seen Hf] _ IH]; intros g l.
  - by eexists.
  - destruct (detect_emotion_frame_seen f g l seen Hf) as (g1 & l1 & out & Hstep & _).
    destruct (IH g1 l1) as [[[g2 l2] outs] Hrun].
    cbn [detect_emotion_run]. rewrite Hstep. cbn [mbind option_bind].
    rewrite Hrun. by eexists.
Qed.

(** Two frames with closed eyes and one with open eyes, from counter 0. *)
Lemma no_tired_before_15_witness :
  ∃ g' l' outs,
    detect_emotion_run [shut_frame; shut_frame; wide_frame] (initial_globals, 0%Q)
      = Some (g', l', outs)
    ∧ 0 ≤ eye_closed_counter g' ≤ Z.of_nat 3
    ∧ ∀ i out, outs !! i = Some out → tired_now out = true → (15 ≤ i)%nat.
Proof.
  destruct (run_succeeds_on_seen [shut_frame; shut_frame; wide_frame]
              initial_globals 0%Q) as [[[g' l'] outs] Hrun].
  { repeat constructor; eexists;
      first [apply frame_seen_shut | apply frame_seen_wide]. }
  exists g', l', outs. split; [exact Hrun|].
  apply (no_tired_before_15 _ initial_globals g' 0%Q l' outs Hrun). reflexivity.
Defined.

Lemma no_face_frames_run (ns : list frame) (g : globals) (l : Q) :
  Forall (λ f, faces f = []) ns →
  ∃ g' l' outs,
    detect_emotion_run ns (g, l) = Some (g', l', outs)
    ∧ eye_closed_counter g' = eye_closed_counter g
    ∧ tired_now <$> outs = replicate (length ns) false.
Proof.
  intros Hns. revert g l. induction Hns as [|f ns Hf _ IH]; intros g l.
  - by eexists _, _, _.
  - assert (frame_seen f = Some None) as Hseen
      by (unfold frame_seen; by rewrite Hf).
    destruct (detect_emotion_frame_seen f g l _ Hseen)
      as (g1 & l1 & out & Hstep & Hc1 & Ht1).
    destruct (IH g1 l1) as (g2 & l2 & outs & Hrun & Hc2 & Ht2).
    exists g2, l2, (out :: outs). cbn [detect_emotion_run].
    rewrite Hstep. cbn [mbind option_bind]. rewrite Hrun. cbn [mbind option_bind].
    split; [reflexivity|]. split.
    + by rewrite Hc2, Hc1.
    + rewrite fmap_cons, Ht2, Ht1. reflexivity.
Qed.

(** X9. Frames without a face neither reset nor decay the counter: after at
    least 15 frames with closed eyes, then any number of frames in which no
    face is found, the first frame showing open eyes reports tired, and it
    is the only frame of the run to do so. *)
Theorem tired_after_occlusion (cs ns : list frame) (o : frame)
    (g : globals) (l : Q) :
  eye_closed_counter g = 0 →
  Forall (λ f, frame_seen f = Some (Some true)) cs →
  (15 ≤ length cs)%nat →
  Forall (λ f, faces f = []) ns →
  frame_seen o = Some (Some false) →
  ∃ g' l' outs,
    detect_emotion_run (cs ++ ns ++ [o]) (g, l) = Some (g', l', outs)
    ∧ tired_now <$> outs = replicate (length cs + length ns) false ++ [true]
    ∧ eye_closed_counter g' = 0.
Proof.
  intros Hzero Hcs Hlen Hns Ho.
  destruct (closed_frames_run cs g l Hcs) as (g1 & l1 & outs1 & Hrun1 & Hc1 & Ht1).
  destruct (no_face_frames_run ns g1 l1 Hns) as (g2 & l2 & outs2 & Hrun2 & Hc2 & Ht2).
  destruct (detect_emotion_frame_seen o g2 l2 _ Ho)
    as (g3 & l3 & out & Hstep & Hc3 & Ht3).
  exists g3, l3, (outs1 ++ outs2 ++ [out]).
  split; [|split].
  - rewrite detect_emotion_run_app, Hrun1. cbn [mbind option_bind].
    rewrite detect_emotion_run_app, Hrun2. cbn [mbind option_bind].
    cbn [detect_emotion_run]. rewrite Hstep. reflexivity.
  - rewrite !fmap_app, Ht1, Ht2, replicate_add, <- app_assoc. do 2 f_equal.
    cbn [fmap list_fmap]. rewrite Ht3, Hc2, Hc1, Hzero. cbn [debounce snd].
    f_equal. apply bool_decide_eq_true_2. unfold EAR_CONSEC_FRAMES. lia.
  - rewrite Hc3. reflexivity.
Qed.

(** Fifteen frames with closed eyes, three without a face, one with open
    eyes. *)
Lemma tired_after_occlusion_witness :
  ∃ g' l' outs,
    detect_emotion_run
      (replicate 15 shut_frame ++ replicate 3 (Frame [] 0 None) ++ [wide_frame])
      (initial_globals, 0%Q) = Some (g', l', outs)
    ∧ tired_now <$> outs
      = replicate (length (replicate 15 shut_frame)
                   + length (replicate 3 (Frame [] 0 None))) false ++ [true]
    ∧ eye_closed_counter g' = 0.
Proof.
  apply (tired_after_occlusion (replicate 15 shut_frame)
           (replicate 3 (Frame [] 0 None)) wide_frame initial_globals 0%Q).
  - reflexivity.
  - apply Forall_replicate, frame_seen_shut.
  - rewrite length_replicate. lia.
  - apply Forall_replicate. reflexivity.
  - apply frame_seen_wide.
Defined.

(** X10. A run of the webcam loop touches the counter and the emotion
    window only: typing metrics, scroll count and pending key presses are
    as before, and the window is the old window followed by the labels
    sampled, in frame order, each of them one of the five affect labels. *)
Theorem run_appends_samples (fs : list frame) (g g' : globals) (l l' : Q)
    (outs : list frame_out) :
  detect_emotion_run fs (g, l) = Some (g', l', outs) →
  typing_metrics g' = typing_metrics g
  ∧ scroll_events g' = scroll_events g
  ∧ key_press_times g' = key_press_times g
  ∧ emotion_window g' = emotion_window g ++ omap sampled outs
  ∧ Forall (λ lab, lab ∈ affect_labels) (omap sampled outs).
Proof.
  revert g l outs. induction fs as [|f fs IH]; intros g l outs Hrun.
  - injection Hrun as <- <- <-. cbn. rewrite app_nil_r. done.
  - apply detect_emotion_run_cons_inv in Hrun
      as (g1 & l1 & out & outs' & Hstep & Hrun & ->).
    destruct (detect_emotion_frame_inv _ _ _ _ _ _ Hstep)
      as (seen & _ & _ & _ & Ht & Hs & Hk & Hw & Hlab).
    destruct (IH g1 l1 outs' Hrun) as (Ht' & Hs' & Hk' & Hw' & Hall).
    rewrite Ht', Hs', Hk', Hw', Ht, Hs, Hk, Hw.
    split; [done|]. split; [done|]. split; [done|].
    destruct (sampled out) as [lab|] eqn:Hsam; cbn [omap list_omap option_list].
    + rewrite Hsam. split; [by rewrite <- app_assoc|].
      constructor; [|done]. rewrite (Hlab lab eq_refl). apply harmonise_label.
    + rewrite Hsam, app_nil_r. done.
Qed.

(** Three frames without a face at times 5, 5.5 and 7, the classifier
    answering sad, happy and failing: the first and the third are sampled. *)
Lemma run_appends_samples_witness :
  let fs := [Frame [] 5 (Some "sad"); Frame [] (11 # 2) (Some "happy");
             Frame [] 7 None] in
  let g := Globals ["confusion"] [1 # 4]%Q 2 0 ∅ in
  ∃ g' l' outs,
    detect_emotion_run fs (g, 0%Q) = Some (g', l', outs)
    ∧ emotion_window g' = ["confusion"; "boredom"; "engagement/focus"]
    ∧ typing_metrics g' = typing_metrics g
    ∧ scroll_events g' = scroll_events g
    ∧ key_press_times g' = key_press_times g
    ∧ emotion_window g' = emotion_window g ++ omap sampled outs
    ∧ Forall (λ lab, lab ∈ affect_labels) (omap sampled outs).
Proof.
  cbv zeta.
  assert (∃ g' l' outs,
            detect_emotion_run
              [Frame [] 5 (Some "sad"); Frame [] (11 # 2) (Some "happy");
               Frame [] 7 None] (Globals ["confusion"] [1 # 4]%Q 2 0 ∅, 0%Q)
            = Some (g', l', outs)
            ∧ emotion_window g' = ["confusion"; "boredom"; "engagement/focus"])
    as (g' & l' & outs & Hrun & Hw).
  { eexists _, _, _. split; reflexivity. }
  exists g', l', outs. split; [exact Hrun|]. split; [exact Hw|].
  apply (run_appends_samples _ _ _ _ _ _ Hrun).
Defined.

Lemma detect_emotion_frame_sampling (f : frame) (g g' : globals) (l l' : Q)
    (out : frame_out) :
  detect_emotion_frame f (g, l) = Some (g', l', out) →
  (sampled out = None ∧ l' = l ∧ ¬ (EMOTION_SAMPLE_INTERVAL <= now f - l)%Q)
  ∨ (is_Some (sampled out) ∧ l' = now f
     ∧ (EMOTION_SAMPLE_INTERVAL <= now f - l)%Q).
Proof.
  unfold detect_emotion_frame. intros Hstep.
  destruct (frame_seen f) as [seen|]; [|discriminate Hstep].
  cbn [mbind option_bind] in Hstep.
  destruct (debounce seen (eye_closed_counter g)) as [counter tired].
  destruct (Qle_bool _ _) eqn:Hq; injection Hstep as <- <- <-; cbn.
  - right. apply Qle_bool_iff in Hq. split; [by eexists|done].
  - left. split; [done|]. split; [done|]. intros Hle.
    apply Qle_bool_iff in Hle. congruence.
Qed.

Lemma last_default_irrelevant {A} (x d1 d2 : A) (l : list A) :
  List.last (x :: l) d1 = List.last (x :: l) d2.
Proof.
  revert x. induction l as [|y l IH]; intros x; [done|].
  change (List.last (y :: l) d1 = List.last (y :: l) d2). apply IH.
Qed.

Lemma last_cons_default {A} (x d : A) (l : list A) :
  List.last l x = List.last (x :: l) d.
Proof.
  destruct l as [|y l]; [done|].
  change (List.last (y :: l) x = List.last (y :: l) d).
  apply last_default_irrelevant.
Qed.

(** X28. Labels are sampled at most once per sample interval: in any run
    of the webcam loop, the clock readings at which a label was appended are
    each at least 1 s after the previous one (the first after the time of
    the last sample before the run), and the loop's record of the last
    sample is the last of them. *)
Theorem samples_spaced (fs : list frame) (g g' : globals) (l l' : Q)
    (outs : list frame_out) :
  detect_emotion_run fs (g, l) = Some (g', l', outs) →
  spaced_from l (sample_times fs outs)
  ∧ l' = List.last (sample_times fs outs) l.
Proof.
  revert g l outs. induction fs as [|f fs IH]; intros g l outs Hrun.
  - injection Hrun as <- <- <-. done.
  - apply detect_emotion_run_cons_inv in Hrun
      as (g1 & l1 & out & outs' & Hstep & Hrun & ->).
    destruct (IH g1 l1 outs' Hrun) as [Hsp Hlast].
    unfold sample_times in *. cbn [zip zip_with omap list_omap fst snd].
    destruct (detect_emotion_frame_sampling _ _ _ _ _ _ Hstep)
      as [(Hs & -> & _)|([lab Hs] & -> & Hle)]; rewrite Hs.
    + done.
    + cbn [spaced_from]. split; [by split|]. rewrite Hlast.
      apply last_cons_default.
Qed.

(** Frames at 5 s, 5.5 s, 6 s and 7.25 s after a sample at 4.5 s: the
    second and the fourth are sampled. *)
Lemma samples_spaced_witness :
  let fs := [Frame [] 5 None; Frame [] (11 # 2) None; Frame [] 6 None;
             Frame [] (29 # 4) None] in
  ∃ g' l' outs,
    detect_emotion_run fs (initial_globals, (9 # 2)%Q) = Some (g', l', outs)
    ∧ sample_times fs outs = [11 # 2; 29 # 4]%Q
    ∧ spaced_from (9 # 2) (sample_times fs outs)
    ∧ l' = List.last (sample_times fs outs) (9 # 2)%Q.
Proof.
  cbv zeta.
  assert (∃ g' l' outs,
            detect_emotion_run
              [Frame [] 5 None; Frame [] (11 # 2) None; Frame [] 6 None;
               Frame [] (29 # 4) None] (initial_globals, (9 # 2)%Q)
            = Some (g', l', outs)
            ∧ sample_times [Frame [] 5 None; Frame [] (11 # 2) None;
                            Frame [] 6 None; Frame [] (29 # 4) None] outs
              = [11 # 2; 29 # 4]%Q)
    as (g' & l' & outs & Hrun & Hts).
  { eexists _, _, _. split; reflexivity. }
  exists g', l', outs. split; [exact Hrun|]. split; [exact Hts|].
  apply (samples_spaced _ _ _ _ _ _ Hrun).
Defined.

(** ** Reducer cycles *)

Lemma py_count_filter_out (P : string → Prop) `{!∀ x, Decision (P x)}
    (l : list string) (k : string) :
  ¬ P k → py_count (filter P l) k = 0.
Proof.
  intros HP. unfold py_count. rewrite list_filter_filter.
  replace (filter (λ a, a = k ∧ P a) l) with (@nil string); [done|].
  symmetry. induction l as [|x l IH]; [done|].
  rewrite filter_cons_False; [done|]. intros [-> ?]. done.
Qed.

Lemma filter_all (P : string → Prop) `{!∀ x, Decision (P x)} (l : list string) :
  (∀ x, x ∈ l → P x) → filter P l = l.
Proof.
  induction l as [|x l IH]; intros Hall; [done|].
  rewrite filter_cons_True by (apply Hall; by left).
  rewrite IH; [done|]. intros y Hy. apply Hall. by right.
Qed.

(** X11. What a cycle does to the count of a label: an alerted label is
    left with no entry, the count of every other label is what it was, so
    that entries below the threshold keep accumulating across cycles. *)
Theorem cycle_counts `{SetIter} (g : globals) (e : string) :
  py_count (emotion_window (after (analyze_emotions_cycle g))) e
  = if decide (fires (emotion_window g) e) then 0
    else py_count (emotion_window g) e.
Proof.
  destruct (cycle_alerts_window g) as [_ ->]. case_decide as Hf.
  - apply py_count_filter_out. tauto.
  - by apply py_count_filter.
Qed.

Lemma no_fires_after_purge (w : list string) (e : string) :
  ¬ fires (filter (λ e, ¬ fires w e) w) e.
Proof.
  intros [Hneg Hcnt]. destruct (decide (fires w e)) as [Hf|Hf].
  - rewrite py_count_filter_out in Hcnt by tauto.
    unfold ALERT_THRESHOLD in Hcnt. lia.
  - rewrite py_count_filter in Hcnt by done. apply Hf. by split.
Qed.

(** X12. No label is alerted twice for the same entries: a cycle that
    follows another one with nothing appended in between starts no alert and
    leaves the emotion window as it found it. *)
Theorem second_cycle_silent `{SetIter} (g : globals) :
  let r1 := analyze_emotions_cycle g in
  let r2 := analyze_emotions_cycle (after r1) in
  alerts r2 = [] ∧ emotion_window (after r2) = emotion_window (after r1).
Proof.
  intros r1 r2.
  destruct (cycle_alerts_window g) as [_ Hw1]. fold r1 in Hw1.
  destruct (cycle_alerts_window (after r1)) as [Ha2 Hw2]. fold r2 in Ha2, Hw2.
  assert (∀ e, ¬ fires (emotion_window (after r1)) e) as Hno.
  { intros e. rewrite Hw1. apply no_fires_after_purge. }
  split.
  - rewrite Ha2.
    destruct (fired _) as [|e al] eqn:Hal; [done|]. exfalso.
    apply (Hno e), fired_Counter_negative. rewrite Hal. by left.
  - rewrite Hw2. apply filter_all. intros e _. apply Hno.
Qed.

(** X13. A cycle only ever shortens the emotion window, keeping the order
    of what stays, and it does not touch the closed-eye counter or the
    pending key presses. *)
Theorem cycle_frame `{SetIter} (g : globals) :
  let r := analyze_emotions_cycle g in
  emotion_window (after r) `sublist_of` emotion_window g
  ∧ eye_closed_counter (after r) = eye_closed_counter g
  ∧ key_press_times (after r) = key_press_times g.
Proof.
  intros r. destruct (cycle_alerts_window g) as [_ Hw]. fold r in Hw.
  split; [rewrite Hw; apply sublist_filter|].
  unfold r, analyze_emotions_cycle. destruct (alert_loop _ _) as [started w].
  done.
Qed.

(** X14. If every entry of the window is one of the five affect labels, so
    is every entry after the cycle, and so is the facial state reported. *)
Theorem cycle_labels `{SetIter} (g : globals) :
  Forall (λ lab, lab ∈ affect_labels) (emotion_window g) →
  let r := analyze_emotions_cycle g in
  Forall (λ lab, lab ∈ affect_labels) (emotion_window (after r))
  ∧ facial (printed r) ∈ affect_labels.
Proof.
  intros Hall r.
  destruct (cycle_alerts_window g) as [_ Hw]. fold r in Hw.
  destruct (cycle_fields g) as (Hfm & Hpr & _). fold r in Hfm, Hpr.
  assert (Forall (λ lab, lab ∈ affect_labels) (emotion_window (after r))) as Hall'.
  { rewrite Hw. rewrite Forall_forall in Hall |- *.
    intros lab [_ Hin]%list_elem_of_filter. by apply Hall. }
  split; [exact Hall'|].
  rewrite Hpr. cbn [facial]. unfold cross_adjust.
  case_decide; [unfold affect_labels; rewrite !elem_of_cons; tauto|].
  rewrite Hfm. destruct (emotion_window (after r)) as [|x w] eqn:Hwin.
  - cbn. unfold affect_labels. rewrite !elem_of_cons. tauto.
  - rewrite Forall_forall in Hall'. apply Hall'.
    apply (face_mode_of_nonempty (x :: w)). done.
Qed.

(** A window of two affect labels. *)
Lemma cycle_labels_witness :
  let r := analyze_emotions_cycle (Globals ["tired"; "boredom"] [] 0 0 ∅) in
  Forall (λ lab, lab ∈ affect_labels) (emotion_window (after r))
  ∧ facial (printed r) ∈ affect_labels.
Proof.
  apply (cycle_labels (Globals ["tired"; "boredom"] [] 0 0 ∅)).
  cbn. repeat constructor; unfold affect_labels; rewrite !elem_of_cons; tauto.
Defined.

(** X15. The cross-adjustment acts only together with a restless scroll
    state: whenever the reported facial state differs from the computed one,
    the report says ["boredom"] and ["impatient/restless"]; a report with
    scroll state ["focused"] always carries the computed facial state. *)
Theorem override_only_when_restless `{SetIter} (g : globals) :
  let r := analyze_emotions_cycle g in
  (facial (printed r) = face_mode r
   ∨ facial (printed r) = "boredom"
     ∧ face_mode r = "engagement/focus"
     ∧ scrolling (printed r) = "impatient/restless")
  ∧ (scroll_events g ≤ 10 ↔ scrolling (printed r) = "focused").
Proof.
  intros r. destruct (cycle_fields g) as (_ & Hpr & _). fold r in Hpr.
  rewrite Hpr. cbn [facial scrolling]. unfold cross_adjust, scroll_state_of.
  split.
  - case_decide as Hc; [|by left]. right. destruct Hc as [Hfm Hn].
    rewrite decide_True by lia. done.
  - case_decide; split; intros; solve [lia | done].
Qed.

(** ** Typing and scroll states *)

(** The rounding of the mean, on values computed with Python's
    [float(Fraction(...))] and [statistics.mean]: 1/3, the mean of 0.1, 0.2
    and 0.4, a subnormal, and a mean just above 0.5 that rounds to 0.5. *)
Example round_double_examples :
  round_double (1 # 3) = (6004799503160661 # 18014398509481984)%Q
  ∧ mean [3602879701896397 # 36028797018963968;
          3602879701896397 # 18014398509481984;
          3602879701896397 # 9007199254740992]%Q
    = (4203359652212463 # 18014398509481984)%Q
  ∧ round_double (1 # (3 * 2 ^ 1070)) = (5 # (2 ^ 1074))%Q
  ∧ mean [1 # 2; 4503599627370497 # 9007199254740992; 1 # 2]%Q = (1 # 2)%Q
  ∧ mean [double_0_15] = double_0_15.
Proof. repeat split; vm_compute; reflexivity. Qed.

(** Thresholds are compared as doubles: a single hold-duration of 0.15 is
    not below 0.15, and the mean of 0.5, the next double and 0.5 is not
    above 0.5. *)
Example typing_state_examples :
  typing_state_of [double_0_15] = "neutral"
  ∧ typing_state_of [1 # 2; 4503599627370497 # 9007199254740992; 1 # 2]%Q
    = "neutral"
  ∧ typing_state_of [3 # 4; 1]%Q = "confused/frustrated"
  ∧ typing_state_of [3602879701896397 # 36028797018963968]%Q = "confident".
Proof. repeat split; vm_compute; reflexivity. Qed.

Lemma scrolls_fields (n : nat) (g : globals) :
  scrolls n g
  = Globals (emotion_window g) (typing_metrics g)
            (scroll_events g + Z.of_nat n) (eye_closed_counter g)
            (key_press_times g).
Proof.
  unfold scrolls. induction n as [|n IH].
  - cbn. rewrite Z.add_0_r. by destruct g.
  - rewrite Nat.iter_succ, IH. unfold on_scroll. cbn. f_equal. lia.
Qed.

(** X17. Scroll events are counted one by one and from zero in every
    period: after a cycle and then [n] scroll callbacks, the next cycle
    reports ["impatient/restless"] exactly when [n] exceeds 10, whatever was
    scrolled before the first cycle; the callbacks change nothing else. *)
Theorem scrolls_between_cycles `{SetIter} (g : globals) (n : nat) :
  let g1 := after (analyze_emotions_cycle g) in
  let r := analyze_emotions_cycle (scrolls n g1) in
  scroll_events (scrolls n g1) = Z.of_nat n
  ∧ emotion_window (scrolls n g1) = emotion_window g1
  ∧ typing_metrics (scrolls n g1) = typing_metrics g1
  ∧ scrolling (printed r)
    = (if decide (10 < n)%nat then "impatient/restless" else "focused").
Proof.
  intros g1 r.
  destruct (cycle_fields g) as (_ & _ & _ & Hs & _). fold g1 in Hs.
  destruct (cycle_fields (scrolls n g1)) as (_ & Hpr & _). fold r in Hpr.
  rewrite Hpr. rewrite scrolls_fields. cbn. rewrite Hs.
  split; [lia|]. split; [done|]. split; [done|]. unfold scroll_state_of.
  repeat case_decide; solve [done | lia].
Qed.

(** ** Keyboard callbacks *)

(** X18. A press followed by the release of the same key records one
    hold-duration, the release time minus the press time, at the end of the
    typing window and forgets the press; only the escape key makes the
    release callback return false.  A press stamped with time 0 is taken
    for no press: its release records nothing. *)
Theorem press_release (key : string) (t rel : Q) (g : globals) :
  (¬ (t == 0)%Q →
     on_release key rel (on_press key t g)
     = (negb (bool_decide (key = "Key.esc")),
        Globals (emotion_window g) (typing_metrics g ++ [(rel - t)%Q])
                (scroll_events g) (eye_closed_counter g)
                (delete key (key_press_times g))))
  ∧ ((t == 0)%Q →
     typing_metrics (on_release key rel (on_press key t g)).2 = typing_metrics g).
Proof.
  unfold on_release, on_press. cbn. rewrite lookup_insert_eq, delete_insert_eq.
  split; intros Ht.
  - destruct (Qeq_bool t 0) eqn:Hb; [|done].
    apply Qeq_bool_iff in Hb. done.
  - apply Qeq_bool_iff in Ht. by rewrite Ht.
Qed.

(** The key [a] pressed at 10 s and released at 10.25 s; a press stamped
    0. *)
Lemma press_release_witness :
  on_release "a" (41 # 4) (on_press "a" 10 initial_globals)
  = (true, Globals [] [(41 # 4) - 10]%Q 0 0 (delete "a" ∅))
  ∧ typing_metrics (on_release "a" 5 (on_press "a" 0 initial_globals)).2 = [].
Proof.
  split.
  - apply (proj1 (press_release "a" 10 (41 # 4) initial_globals)). discriminate.
  - apply (proj2 (press_release "a" 0 5 initial_globals)). reflexivity.
Defined.

Lemma on_release_unpressed (key : string) (rel : Q) (g : globals) :
  key_press_times g !! key = None → (on_release key rel g).2 = g.
Proof.
  intros Hnone. unfold on_release. rewrite Hnone. cbn.
  rewrite delete_id by done. by destruct g.
Qed.

(** X19. A release is consumed by the press it answers: releasing a key
    twice in a row records nothing the second time and leaves all globals
    as the first release left them. *)
Theorem double_release (key : string) (rel1 rel2 : Q) (g : globals) :
  let g1 := (on_release key rel1 g).2 in
  (on_release key rel2 g1).2 = g1.
Proof.
  intros g1. apply on_release_unpressed.
  unfold g1, on_release. cbn. apply lookup_delete_eq.
Qed.

(** X20. With key auto-repeat, a second press of a key that is still down
    replaces the first: the one hold-duration recorded at the release runs
    from the last press, and the key is forgotten afterwards. *)
Theorem repeated_press (key : string) (t1 t2 rel : Q) (g : globals) :
  ¬ (t2 == 0)%Q →
  let g' := (on_release key rel (on_press key t2 (on_press key t1 g))).2 in
  typing_metrics g' = typing_metrics g ++ [(rel - t2)%Q]
  ∧ key_press_times g' = delete key (key_press_times g).
Proof.
  intros Ht g'. unfold g', on_release, on_press. cbn.
  rewrite !lookup_insert_eq, !delete_insert_eq.
  destruct (Qeq_bool t2 0) eqn:E; [|done]. apply Qeq_bool_iff in E. done.
Qed.

(** The key [a] pressed at 1 s, repeated at 2 s, released at 3 s. *)
Lemma repeated_press_witness :
  let g' := (on_release "a" 3 (on_press "a" 2 (on_press "a" 1 initial_globals))).2 in
  typing_metrics g' = [] ++ [3 - 2]%Q
  ∧ key_press_times g' = delete "a" ∅.
Proof.
  apply (repeated_press "a" 1 2 3 initial_globals). discriminate.
Defined.

(** X21. Keys held at the same time do not disturb each other: with two
    different keys pressed one after the other and released in the same
    order, both hold-durations are recorded, in release order. *)
Theorem overlapping_keys (a b : string) (ta tb ra rb : Q) (g : globals) :
  a ≠ b → ¬ (ta == 0)%Q → ¬ (tb == 0)%Q →
  let g1 := on_press b tb (on_press a ta g) in
  let g2 := (on_release b rb (on_release a ra g1).2).2 in
  typing_metrics g2 = typing_metrics g ++ [(ra - ta)%Q; (rb - tb)%Q]
  ∧ key_press_times g2 = delete b (delete a (key_press_times g)).
Proof.
  intros Hne Ha Hb g1 g2. unfold g2, g1, on_release, on_press. cbn.
  rewrite (lookup_insert_ne _ b a) by done. rewrite lookup_insert_eq.
  rewrite lookup_delete_ne by done. rewrite lookup_insert_eq.
  assert (Qeq_bool ta 0 = false) as ->.
  { destruct (Qeq_bool ta 0) eqn:E; [|done]. apply Qeq_bool_iff in E. done. }
  assert (Qeq_bool tb 0 = false) as ->.
  { destruct (Qeq_bool tb 0) eqn:E; [|done]. apply Qeq_bool_iff in E. done. }
  split; [by rewrite <- app_assoc|].
  rewrite (delete_insert_ne _ a b) by done.
  by rewrite delete_insert_eq, delete_insert_eq.
Qed.

(** The keys [a] and [b] pressed at 1 s and 2 s, released at 3 s and 5 s. *)
Lemma overlapping_keys_witness :
  let g1 := on_press "b" 2 (on_press "a" 1 initial_globals) in
  let g2 := (on_release "b" 5 (on_release "a" 3 g1).2).2 in
  typing_metrics g2 = [] ++ [3 - 1; 5 - 2]%Q
  ∧ key_press_times g2 = delete "b" (delete "a" ∅).
Proof.
  apply (overlapping_keys "a" "b" 1 2 3 5 initial_globals); discriminate.
Defined.

(** ** Counter and alert order *)

Lemma counter_incr_fst (k : string) (c : list (string * Z)) :
  (counter_incr k c).*1 = if decide (k ∈ c.*1) then c.*1 else c.*1 ++ [k].
Proof.
  induction c as [|[k0 n] c IH]; [done|].
  cbn [counter_incr]. destruct (decide (k = k0)) as [->|Hne].
  - rewrite decide_True by (rewrite fmap_cons; by left). done.
  - rewrite !fmap_cons, IH. cbn [fst].
    destruct (decide (k ∈ c.*1)) as [Hin|Hnin].
    + rewrite decide_True by (by right). done.
    + rewrite decide_False; [done|]. rewrite elem_of_cons. tauto.
Qed.

Lemma first_occurrences_snoc (l : list string) (x : string) :
  first_occurrences (l ++ [x])
  = if decide (x ∈ l) then first_occurrences l else first_occurrences l ++ [x].
Proof.
  unfold first_occurrences. rewrite reverse_snoc. cbn [remove_dups].
  destruct (decide_rel elem_of x (reverse l)) as [Hin|Hnin].
  - rewrite decide_True; [done|]. by apply elem_of_reverse.
  - rewrite decide_False by (by rewrite <- elem_of_reverse).
    by rewrite reverse_cons.
Qed.

Lemma Counter_fst (l : list string) : (Counter l).*1 = first_occurrences l.
Proof.
  induction l as [|x l IH] using rev_ind; [done|].
  rewrite Counter_snoc, counter_incr_fst, first_occurrences_snoc, IH.
  apply decide_ext. by rewrite <- IH, Counter_keys.
Qed.

Lemma assoc_list_by_keys (f : string → Z) (c : list (string * Z)) :
  (∀ k n, (k, n) ∈ c → n = f k) → c = (λ k, (k, f k)) <$> c.*1.
Proof.
  induction c as [|[k n] c IH]; intros Hf; [done|].
  rewrite !fmap_cons. cbn [fst]. rewrite (Hf k n) by (by left).
  f_equal. apply IH. intros k' n' Hin. apply Hf. by right.
Qed.

Lemma first_occurrences_elem (l : list string) (x : string) :
  x ∈ first_occurrences l ↔ x ∈ l.
Proof.
  unfold first_occurrences.
  by rewrite elem_of_reverse, elem_of_remove_dups, elem_of_reverse.
Qed.

Lemma first_occurrences_filter (P : string → Prop) `{!∀ x, Decision (P x)}
    (l : list string) :
  first_occurrences (filter P l) = filter P (first_occurrences l).
Proof.
  induction l as [|x l IH] using rev_ind; [done|].
  rewrite filter_app, first_occurrences_snoc.
  destruct (decide (P x)) as [HP|HP].
  - rewrite filter_cons_True, filter_nil by done.
    rewrite first_occurrences_snoc, IH.
    destruct (decide (x ∈ l)) as [Hin|Hnin].
    + rewrite decide_True; [done|]. by apply list_elem_of_filter.
    + rewrite decide_False by (rewrite list_elem_of_filter; tauto).
      rewrite filter_app, filter_cons_True, filter_nil by done. done.
  - rewrite filter_cons_False, filter_nil, app_nil_r by done. rewrite IH.
    case_decide; [done|].
    by rewrite filter_app, filter_cons_False, filter_nil, app_nil_r.
Qed.

(** X22. [Counter] over a list is the list's distinct elements in order of
    first occurrence, each paired with its number of occurrences; an element
    that does not occur reads as 0. *)
Theorem Counter_spec (l : list string) :
  Counter l = (λ k, (k, py_count l k)) <$> first_occurrences l
  ∧ ∀ k, counter_get (Counter l) k = py_count l k.
Proof.
  split; [|apply Counter_get].
  rewrite <- Counter_fst. apply assoc_list_by_keys.
  intros k n Hin. by apply Counter_items in Hin as [_ ->].
Qed.

(** X23. The popups of a cycle are started in the order in which their
    labels first occur in the emotion window. *)
Theorem alerts_in_window_order `{SetIter} (g : globals) :
  alerts (analyze_emotions_cycle g)
  = filter (fires (emotion_window g)) (first_occurrences (emotion_window g)).
Proof.
  destruct (cycle_alerts_window g) as [-> _].
  set (w := emotion_window g). set (neg := filter _ w).
  unfold fired.
  rewrite (assoc_list_by_keys (py_count neg) (Counter neg))
    by (intros k n Hin; by apply Counter_items in Hin as [_ ->]).
  rewrite Counter_fst. unfold neg. rewrite first_occurrences_filter.
  induction (first_occurrences w) as [|x ks IH]; [done|].
  rewrite (filter_cons (λ e, e ∈ NEGATIVE_EMOTIONS)).
  rewrite (filter_cons (fires w)).
  destruct (decide (x ∈ NEGATIVE_EMOTIONS)) as [Hneg|Hneg].
  - rewrite fmap_cons, filter_cons. cbn [snd].
    rewrite py_count_filter by done.
    destruct (decide (ALERT_THRESHOLD ≤ py_count w x)) as [Hc|Hc].
    + rewrite decide_True by (by split). rewrite fmap_cons. cbn [fst].
      by rewrite IH.
    + rewrite decide_False by (intros [_ ?]; done). exact IH.
  - rewrite decide_False by (intros [? _]; done). exact IH.
Qed.

(** Two alerts in one cycle, in window order. *)
Example alerts_in_window_order_example :
  alerts (analyze_emotions_cycle
            (Globals (["tired"; "boredom"] ++ replicate 4 "boredom"
                      ++ replicate 4 "tired" ++ ["confusion"]) [] 0 0 ∅))
  = ["tired"; "boredom"].
Proof. vm_compute. reflexivity. Qed.

(** ** Single-shot endpoint, further *)

Lemma harmonise_tired_iff (r : string) (t : bool) :
  harmonise r t = "tired" ↔ t = true.
Proof.
  unfold harmonise. destruct t; [done|].
  rewrite RAW_TO_HIGH_lookup. unfold harmonise_table_spec.
  repeat case_decide; done.
Qed.

(** The rows of the left eye, when the landmark array has them. *)
Lemma left_eye_rows (lm : list point) :
  (48 ≤ length lm)%nat →
  ∃ q0 q1 q2 q3 q4 q5,
    lm !! 42%nat = Some q0 ∧ lm !! 45%nat = Some q3
    ∧ mapM (λ i, lm !! i) LEFT_EYE = Some [q0; q1; q2; q3; q4; q5].
Proof.
  intros Hlen.
  destruct (lookup_lt_is_Some_2 lm 42) as [q0 H0]; [lia|].
  destruct (lookup_lt_is_Some_2 lm 43) as [q1 H1]; [lia|].
  destruct (lookup_lt_is_Some_2 lm 44) as [q2 H2]; [lia|].
  destruct (lookup_lt_is_Some_2 lm 45) as [q3 H3]; [lia|].
  destruct (lookup_lt_is_Some_2 lm 46) as [q4 H4]; [lia|].
  destruct (lookup_lt_is_Some_2 lm 47) as [q5 H5]; [lia|].
  exists q0, q1, q2, q3, q4, q5. split; [done|]. split; [done|].
  unfold LEFT_EYE. cbn [seq mapM]. rewrite H0, H1, H2, H3, H4, H5. reflexivity.
Qed.

(** The tired flag of the endpoint fails exactly when a face is reported
    with fewer than 48 landmarks (index error) or with a doubled distance of
    the left-eye corners, landmarks 42 and 45, that computes to zero
    (division by zero); without a face it is false. *)
Lemma affect_tired_defined (res : option (list (list point))) :
  (affect_tired res = None
   ↔ ∃ lm others, res = Some (lm :: others)
       ∧ ((length lm < 48)%nat
          ∨ ∃ p0 p3, lm !! 42%nat = Some p0 ∧ lm !! 45%nat = Some p3
              ∧ PrimFloat.eqb (2 * euclidean p0 p3)%float 0%float = true))
  ∧ (res = None ∨ res = Some [] → affect_tired res = Some false).
Proof.
  split; [|by intros [->| ->]].
  destruct res as [[|lm others]|]; cbn [affect_tired].
  - split; [done|]. intros (? & ? & ? & _). done.
  - destruct (decide (length lm < 48)%nat) as [Hlt|Hge].
    + assert (mapM (λ i, lm !! i) LEFT_EYE = None) as ->.
      { pose proof (mapM_lookup_is_Some lm LEFT_EYE) as HL.
        destruct (eye_rows_in_range lm) as [HLr _]. rewrite HLr in HL.
        destruct (mapM _ LEFT_EYE) eqn:E; [|done].
        assert (48 ≤ length lm)%nat by (apply HL; by eexists). lia. }
      split; [|done]. intros _. exists lm, others. split; [done|]. by left.
    + destruct (left_eye_rows lm) as (q0 & q1 & q2 & q3 & q4 & q5 & H0 & H3 & ->);
        [lia|].
      destruct (proj2 (mapM_lookup_is_Some lm RIGHT_EYE)) as [r_eye ->].
      { destruct (eye_rows_in_range lm) as [_ HRr]. apply HRr. lia. }
      cbn [mbind option_bind]. rewrite api_ear_app by (cbn; lia).
      unfold api_ear. cbn [lookup list_lookup mbind option_bind].
      destruct (PrimFloat.eqb _ _) eqn:Hz; cbn [mbind option_bind].
      * split; [|done]. intros _. exists lm, others. split; [done|].
        right. by exists q0, q3.
      * split; [discriminate|].
        intros (lm' & others' & [= <- <-] & [Hlt|(p0 & p3 & Hp0 & Hp3 & Hq)]);
          [lia|].
        rewrite H0 in Hp0. rewrite H3 in Hp3.
        injection Hp0 as <-. injection Hp3 as <-. congruence.
  - split; [done|]. intros (? & ? & ? & _). done.
Qed.

Section EndpointFurther.
Context {Image M : Type}.
Variable imdecode : list Byte.byte → option Image.
Variable face_mesh_process : Image → M → option (list (list point)) * M.
Variable deepface_analyze : Image → option (string * Q).

(** The handler on an upload that passes both checks. *)
Lemma affect_accepted (file : upload) (st : api_state (M := M)) (frame : Image) :
  content_type file ∈ ["image/jpeg"; "image/png"] →
  cv2_imdecode imdecode (body file) = Some (Some frame) →
  affect imdecode face_mesh_process deepface_analyze file st
  = let res := face_mesh_process frame (face_mesh st) in
    let st' := ApiState res.2 (monitor st) in
    match affect_tired res.1 with
    | None => (Uncaught, st')
    | Some tired =>
        let rs := default ("neutral", 0%Q) (deepface_analyze frame) in
        (Ok (harmonise rs.1 tired) rs.2, st')
    end.
Proof.
  intros Hct Hdec. unfold affect.
  rewrite decide_False by (intros Hn; by apply Hn). rewrite Hdec.
  destruct (face_mesh_process frame (face_mesh st)) as [res m]. cbn [fst snd].
  destruct (affect_tired res); [|done].
  by destruct (default _ _).
Qed.

(** X24. Every answer of the handler is the 415 rejection, the 400
    rejection, an uncaught error, or a result whose label is one of the five
    affect labels; and no request changes the globals of the monitor
    module. *)
Theorem affect_answers (file : upload) (st : api_state (M := M)) :
  let answer := affect imdecode face_mesh_process deepface_analyze file st in
  (answer.1 = HTTPException 415 "upload an image"
   ∨ answer.1 = HTTPException 400 "bad image"
   ∨ answer.1 = Uncaught
   ∨ ∃ label score, answer.1 = Ok label score ∧ label ∈ affect_labels)
  ∧ monitor answer.2 = monitor st.
Proof.
  cbv zeta. unfold affect. case_decide as Hct; [by split; [left|]|].
  destruct (cv2_imdecode imdecode (body file)) as [[frame|]|];
    [|by split; [right; left|]|by split; [right; right; left|]].
  destruct (face_mesh_process frame (face_mesh st)) as [res m].
  destruct (affect_tired res) as [tired|]; [|by split; [right; right; left|]].
  destruct (default _ _) as [raw score]. split; [|done].
  right. right. right. exists (harmonise raw tired), score.
  split; [done|]. apply harmonise_label.
Qed.


(** X26. When the face mesh finds no face, the answer is a result that
    carries the classifier's score and the table entry of its raw label,
    never ["tired"]; if the classifier fails as well, the answer is
    ["engagement/focus"] with score 0. *)
Theorem affect_without_face (file : upload) (st : api_state (M := M))
    (frame : Image) :
  content_type file ∈ ["image/jpeg"; "image/png"] →
  cv2_imdecode imdecode (body file) = Some (Some frame) →
  (face_mesh_process frame (face_mesh st)).1 = None
  ∨ (face_mesh_process frame (face_mesh st)).1 = Some [] →
  let answer := (affect imdecode face_mesh_process deepface_analyze file st).1 in
  (∃ label score, answer = Ok label score ∧ label ≠ "tired")
  ∧ (∀ raw score, deepface_analyze frame = Some (raw, score) →
       answer = Ok (harmonise raw false) score)
  ∧ (deepface_analyze frame = None → answer = Ok "engagement/focus" 0).
Proof.
  intros Hct Hdec Hres. rewrite (affect_accepted file st frame Hct Hdec).
  cbv zeta. destruct (affect_tired_defined (face_mesh_process frame (face_mesh st)).1)
    as [_ Hfalse].
  rewrite (Hfalse Hres). cbn [fst].
  split; [|split].
  - eexists _, _. split; [reflexivity|]. rewrite harmonise_tired_iff. done.
  - intros raw score ->. done.
  - intros ->. done.
Qed.

(** X27. With a face of at least 48 landmarks, the one-shot policy decides
    on the left eye of the frame alone.  If [ear] of the six left-eye
    landmarks raises (a zero denominator), the request ends in an uncaught
    error; otherwise the answer is a result whose label is ["tired"] exactly
    when that ratio, as computed in binary64, is below the threshold,
    whatever the classifier says. *)
Theorem affect_tired_label (file : upload) (st : api_state (M := M))
    (frame : Image) (lm : list point) (others : list (list point)) :
  content_type file ∈ ["image/jpeg"; "image/png"] →
  cv2_imdecode imdecode (body file) = Some (Some frame) →
  (face_mesh_process frame (face_mesh st)).1 = Some (lm :: others) →
  (48 ≤ length lm)%nat →
  let answer := (affect imdecode face_mesh_process deepface_analyze file st).1 in
  ∃ l_eye,
    fancy_index lm LEFT_EYE = Some l_eye
    ∧ match api_ear l_eye with
      | None => answer = Uncaught
      | Some v =>
          ∃ label score,
            answer = Ok label score
            ∧ (label = "tired" ↔ PrimFloat.ltb v EAR_THRESH = true)
      end.
Proof.
  intros Hct Hdec Hres Hlen. rewrite (affect_accepted file st frame Hct Hdec).
  cbv zeta. rewrite Hres. cbn [affect_tired].
  destruct (left_eye_rows lm Hlen) as (q0 & q1 & q2 & q3 & q4 & q5 & _ & _ & El).
  destruct (proj2 (mapM_lookup_is_Some lm RIGHT_EYE)) as [r_eye Er].
  { destruct (eye_rows_in_range lm) as [_ HRr]. apply HRr. lia. }
  unfold fancy_index. rewrite El, Er. cbn [mbind option_bind].
  rewrite api_ear_app by (cbn; lia).
  exists [q0; q1; q2; q3; q4; q5]. split; [done|].
  destruct (api_ear [q0; q1; q2; q3; q4; q5]) as [v|]; cbn [mbind option_bind fst];
    [|done].
  eexists _, _. split; [reflexivity|]. apply harmonise_tired_iff.
Qed.
End EndpointFurther.

(** A JPEG upload in which the face mesh finds no face, the classifier
    answering sad. *)
Lemma affect_without_face_witness :
  let affect := affect sample_imdecode (λ _ (m : nat), (None, S m))
                       (λ _, Some ("sad", 9 # 10)%Q) in
  let answer := (affect (Upload "image/jpeg" [Byte.x01])
                        (ApiState 0%nat initial_globals)).1 in
  (∃ label score, answer = Ok label score ∧ label ≠ "tired")
  ∧ (∀ raw score, Some ("sad", 9 # 10)%Q = Some (raw, score) →
       answer = Ok (harmonise raw false) score)
  ∧ (Some ("sad", 9 # 10)%Q = None → answer = Ok "engagement/focus" 0).
Proof.
  apply (affect_without_face sample_imdecode (λ _ (m : nat), (None, S m))
           (λ _, Some ("sad", 9 # 10)%Q) (Upload "image/jpeg" [Byte.x01])
           (ApiState 0%nat initial_globals) [Byte.x01]).
  - cbn. by left.
  - reflexivity.
  - by left.
Defined.

(** A sample face with the left eye shut and the right eye wide open: the
    ratio of the left eye is defined, and it decides the label. *)
Lemma affect_tired_label_witness :
  let answer :=
    (affect sample_imdecode
       (λ _ (m : nat), (Some [face_with wide_eye shut_eye], S m))
       (λ _, Some ("happy", 9 # 10)%Q)
       (Upload "image/png" [Byte.x01]) (ApiState 0%nat initial_globals)).1 in
  ∃ l_eye,
    fancy_index (face_with wide_eye shut_eye) LEFT_EYE = Some l_eye
    ∧ match api_ear l_eye with
      | None => answer = Uncaught
      | Some v =>
          ∃ label score,
            answer = Ok label score
            ∧ (label = "tired" ↔ PrimFloat.ltb v EAR_THRESH = true)
      end.
Proof.
  apply (affect_tired_label sample_imdecode
           (λ _ (m : nat), (Some [face_with wide_eye shut_eye], S m))
           (λ _, Some ("happy", 9 # 10)%Q) (Upload "image/png" [Byte.x01])
           (ApiState 0%nat initial_globals) [Byte.x01]
           (face_with wide_eye shut_eye) []).
  - cbn. right. by left.
  - reflexivity.
  - reflexivity.
  - cbn. lia.
Defined.

(** The three ways to an uncaught error, and the answer on the sample
    face with the left eye shut. *)
Example affect_examples :
  let run faces file :=
    (affect sample_imdecode (λ _ (m : nat), (faces, S m))
            (λ _, Some ("happy", 9 # 10)%Q) file
            (ApiState 0%nat initial_globals)).1 in
  run None (Upload "image/png" []) = Uncaught
  ∧ run (Some [replicate 40 (0, 0)%float]) (Upload "image/png" [Byte.x01])
    = Uncaught
  ∧ run (Some [replicate 478 (0x1p-1, 0x1p-1)%float]) (Upload "image/png" [Byte.x01])
    = Uncaught
  ∧ run (Some [face_with wide_eye shut_eye]) (Upload "image/png" [Byte.x01])
    = Ok "tired" (9 # 10)
  ∧ run (Some [face_with shut_eye wide_eye]) (Upload "image/png" [Byte.x01])
    = Ok "engagement/focus" (9 # 10).
Proof. cbv zeta. repeat split; vm_compute; reflexivity. Qed.
